(** * The host/guest bridge of the p115strmhelper frontend

    A shallow embedding of the JavaScript of

    - [src/utils/sentry.js] and [src/utils/init-sentry.js]
      (the deferred diagnostics singleton),
    - [src/components/Dashboard.vue] (the status poller),
    - the application shell [App.vue] (capability channel, view
      controller, persistence relay),

    together with the properties the specification states about them.

    JavaScript values are plain data (undefined, null, booleans, numbers,
    strings, arrays, objects); statements run in a state monad with
    abrupt completions, so that [try]/[catch]/[finally] read as in the
    source. *)

From Stdlib Require Import String ZArith List Bool Lia DecimalString.
Import ListNotations.
Local Open Scope string_scope.

(* ===================================================================== *)
(** * JavaScript values *)
(* ===================================================================== *)

Module Js.

(** Numbers are kept by their integer value, plus [NaN]: the program only
    tests numbers for truthiness and against the literal [0], and both
    tests send [0] and [-0] one way and every other non-NaN number the
    other way. *)
#[warnings="-register-all"]
Inductive JsVal : Type :=
| JUndefined
| JNull
| JBool (b : bool)
| JNum (n : Z)
| JNaN
| JStr (s : string)
| JArr (items : list JsVal)
| JObj (fields : list (string * JsVal)).

(** [!!v] *)
Definition truthy (v : JsVal) : bool :=
  match v with
  | JUndefined | JNull | JNaN => false
  | JBool b => b
  | JNum n => negb (n =? 0)%Z
  | JStr s => negb (s =? "")
  | JArr _ | JObj _ => true
  end.

(** [a || b] and [a && b] return one of their operands. *)
Definition js_or (a b : JsVal) : JsVal := if truthy a then a else b.
Definition js_and (a b : JsVal) : JsVal := if truthy a then b else a.

(** [v === 0] and [v === 'text']: strict equality with a primitive never
    converts. *)
Definition strict_eq_num (v : JsVal) (n : Z) : bool :=
  match v with JNum m => (m =? n)%Z | _ => false end.

Definition strict_eq_str (v : JsVal) (s : string) : bool :=
  match v with JStr t => (t =? s) | _ => false end.

Fixpoint lookup (k : string) (fields : list (string * JsVal)) : option JsVal :=
  match fields with
  | [] => None
  | (k', v) :: rest => if k' =? k then Some v else lookup k rest
  end.

(** [o.k] for [o] neither [null] nor [undefined].  The keys the program
    reads ([code], [data], [msg], [message], [type], [app], ...) are own
    properties of plain objects only; on primitives and arrays they are
    [undefined]. *)
Definition get_field (o : JsVal) (k : string) : JsVal :=
  match o with
  | JObj fields => match lookup k fields with Some v => v | None => JUndefined end
  | _ => JUndefined
  end.

Definition nullish (v : JsVal) : bool :=
  match v with JUndefined | JNull => true | _ => false end.

(** [o?.k] *)
Definition opt_field (o : JsVal) (k : string) : JsVal :=
  if nullish o then JUndefined else get_field o k.

Definition string_of_Z (n : Z) : string := NilZero.string_of_int (Z.to_int n).

(** [String(v)]: arrays join their items with a comma, printing [null]
    and [undefined] items as nothing.  Numbers print as their integer
    value, which is how JavaScript prints them below [1e21]; objects
    print as plain objects do when they define no [toString] or
    [valueOf] of their own. *)
Fixpoint ToString (v : JsVal) : string :=
  match v with
  | JUndefined => "undefined"
  | JNull => "null"
  | JBool true => "true"
  | JBool false => "false"
  | JNum n => string_of_Z n
  | JNaN => "NaN"
  | JStr s => s
  | JArr items =>
      (fix join (l : list JsVal) : string :=
         match l with
         | [] => ""
         | x :: rest =>
             (match x with JUndefined | JNull => "" | _ => ToString x end)
             ++ (match rest with [] => "" | _ :: _ => "," ++ join rest end)
         end) items
  | JObj _ => "[object Object]"
  end.

(** [new Error(m)] and the [TypeError] of a property read on [null] or
    [undefined]. *)
Definition mk_error (name message : string) : JsVal :=
  JObj [("name", JStr name); ("message", JStr message)].

Definition new_Error (m : JsVal) : JsVal :=
  mk_error "Error" (match m with JUndefined => "" | _ => ToString m end).

Definition TypeError_read (o : JsVal) (k : string) : JsVal :=
  mk_error "TypeError"
    ("Cannot read properties of " ++ ToString o ++ " (reading '" ++ k ++ "')").

(** ** Completions and the statement monad *)

Inductive Completion (A : Type) : Type :=
| Normal (a : A)
| Throw (e : JsVal).
Arguments Normal {A} a.
Arguments Throw {A} e.

Definition M (S A : Type) : Type := S -> Completion A * S.

Definition ret {S A} (a : A) : M S A := fun s => (Normal a, s).
Definition throw {S A} (e : JsVal) : M S A := fun s => (Throw e, s).

Definition bind {S A B} (m : M S A) (k : A -> M S B) : M S B :=
  fun s => match m s with
           | (Normal a, s') => k a s'
           | (Throw e, s') => (Throw e, s')
           end.

Definition modify {S} (f : S -> S) : M S unit := fun s => (Normal tt, f s).
Definition gets {S A} (f : S -> A) : M S A := fun s => (Normal (f s), s).
Definition lift {S A} (c : Completion A) : M S A := fun s => (c, s).

(** [try { body } catch (e) { handler }] *)
Definition try_catch {S A} (body : M S A) (handler : JsVal -> M S A) : M S A :=
  fun s => match body s with
           | (Normal a, s') => (Normal a, s')
           | (Throw e, s') => handler e s'
           end.

(** [try { body } finally { final }]: [final] always runs; the statement
    completes as [body] did unless [final] itself throws. *)
Definition try_finally {S A} (body : M S A) (final : M S unit) : M S A :=
  fun s => match body s with
           | (c, s') => match final s' with
                        | (Normal _, s'') => (c, s'')
                        | (Throw e, s'') => (Throw e, s'')
                        end
           end.

Definition try_catch_finally {S A}
  (body : M S A) (handler : JsVal -> M S A) (final : M S unit) : M S A :=
  try_finally (try_catch body handler) final.

(** [o.k] as an expression: reading a property of [null] or [undefined]
    throws. *)
Definition get_prop {S} (o : JsVal) (k : string) : M S JsVal :=
  if nullish o then throw (TypeError_read o k) else ret (get_field o k).

Definition exec {S A} (m : M S A) (s : S) : S := snd (m s).
Definition completion {S A} (m : M S A) (s : S) : Completion A := fst (m s).

Definition is_normal {A} (c : Completion A) : bool :=
  match c with Normal _ => true | Throw _ => false end.

End Js.

Import Js.

Declare Scope js_scope.
Delimit Scope js_scope with js.
Notation "x <- c1 ;; c2" := (bind c1 (fun x => c2))
  (at level 61, c1 at next level, right associativity) : js_scope.
Notation "c1 ;; c2" := (bind c1 (fun _ => c2))
  (at level 61, right associativity) : js_scope.
Local Open Scope js_scope.

(* ===================================================================== *)
(** * The deferred diagnostics singleton
      ([utils/sentry.js], [utils/init-sentry.js]) *)
(* ===================================================================== *)

Module Sentry.

(** What the module does to the outside world, in order. [CallInitSentry]
    marks the call at line 46 of [init-sentry.js]. *)
Inductive Event : Type :=
| CallInitSentry (app router options : JsVal)
| SentryInit (initOptions : JsVal)
| SentrySetUser (user : JsVal)
| ConsoleError (label : string) (detail : JsVal).

(** The module-level variables of [init-sentry.js]. *)
Record ModuleState : Type := mkModuleState {
  sentryInitialized : bool;
  tempApp : JsVal;
  trace : list Event
}.

Definition initial : ModuleState :=
  {| sentryInitialized := false; tempApp := JNull; trace := [] |}.

(** The [@sentry/vue] client, as far as [initSentry] calls it. *)
Record SentrySdk : Type := mkSdk {
  replayIntegration : JsVal -> Completion JsVal;
  init : JsVal -> Completion unit;
  setUser : JsVal -> Completion unit
}.

(** What one call finds around it: Vue's [getCurrentInstance] and
    [createApp], the global [window] ([None] when [typeof window] is
    ['undefined']), [process.env.NODE_ENV] and the client. *)
Record Env : Type := mkEnv {
  getCurrentInstance : Completion JsVal;
  window : option JsVal;
  createApp : Completion JsVal;
  node_env : Completion JsVal;
  sdk : SentrySdk
}.

Definition St := M ModuleState.

Definition emit (e : Event) : St unit :=
  modify (fun s => {| sentryInitialized := sentryInitialized s;
                      tempApp := tempApp s;
                      trace := trace s ++ [e] |}).

Definition console_error (label : string) (detail : JsVal) : St unit :=
  emit (ConsoleError label detail).

Definition set_sentryInitialized (b : bool) : St unit :=
  modify (fun s => {| sentryInitialized := b;
                      tempApp := tempApp s;
                      trace := trace s |}).

Definition set_tempApp (a : JsVal) : St unit :=
  modify (fun s => {| sentryInitialized := sentryInitialized s;
                      tempApp := a;
                      trace := trace s |}).

Definition FRONTEND_DSN : string :=
  "https://9a6338e4ec0a4e41bd24ad5b84eb437b@glitchtip.ddsrem.com/7".

(** A parameter with a default takes it when the argument is
    [undefined]. *)
Definition default_param (v d : JsVal) : JsVal :=
  match v with JUndefined => d | _ => v end.

Definition strict_neq_false (v : JsVal) : bool :=
  match v with JBool false => false | _ => true end.

(** The options object handed to [Sentry.init].  [ignoreErrors],
    [denyUrls] and [beforeSend] are constants passed through to the
    client and are left out. *)
Definition initOptions (environment app router replay : JsVal) : JsVal :=
  JObj ([("dsn", JStr FRONTEND_DSN);
         ("environment", environment)]
        ++ (if truthy app then [("app", app); ("router", router)] else [])
        ++ [("integrations", JArr [replay]);
            ("tracesSampleRate", JNum 0);
            ("replaysSessionSampleRate", JNum 0);
            ("replaysOnErrorSampleRate", JNum 1)]).

(** [sentry.js], lines 5-104. *)
Definition initSentry (env : Env) (app router options : JsVal) : St unit :=
  let app := default_param app JNull in
  let router := default_param router JNull in
  let options := default_param options (JObj []) in
  enabled <- get_prop options "enabled" ;;
  let isEnabled := strict_neq_false enabled in
  if negb isEnabled then ret tt
  else
    try_catch
      (node <- lift (node_env env) ;;
       replay <- lift (replayIntegration (sdk env)
                         (JObj [("maskAllText", JBool true);
                                ("blockAllMedia", JBool true)])) ;;
       let opts := initOptions (js_or node (JStr "production")) app router replay in
       emit (SentryInit opts) ;;
       lift (init (sdk env) opts) ;;
       let user := JObj [("id", JUndefined)] in
       emit (SentrySetUser user) ;;
       lift (setUser (sdk env) user))
      (fun error => console_error "[Sentry] Failed to initialize:" error).

(** [init-sentry.js], lines 13-25: the app of the current instance, if
    there is one; a throwing [getCurrentInstance] is ignored. *)
Definition app_of_instance (instance : JsVal) : JsVal :=
  if truthy instance then
    if truthy (js_and (get_field instance "appContext")
                      (get_field (get_field instance "appContext") "app"))
    then get_field (get_field instance "appContext") "app"
    else if truthy (get_field instance "app")
         then get_field instance "app"
         else JNull
  else JNull.

Definition locate_instance_app (env : Env) : St JsVal :=
  try_catch
    (instance <- lift (getCurrentInstance env) ;;
     ret (app_of_instance instance))
    (fun _ => ret JNull).

(** [typeof window !== 'undefined']: [window] is declared and holds
    something other than [undefined]. *)
Definition window_defined (env : Env) : bool :=
  match window env with
  | None | Some JUndefined => false
  | Some _ => true
  end.

(** Lines 27-33: the well-known global slots.  The test of line 27 lets
    a [window] that is [null] through, and the reads of lines 28-31 then
    throw. *)
Definition locate_window_app (env : Env) (app : JsVal) : St JsVal :=
  match window env with
  | Some w =>
      if negb (truthy app) && window_defined env then
        vue_app <- get_prop w "__VUE_APP__" ;;
        if truthy vue_app then get_prop w "__VUE_APP__"
        else
          vue_instance <- get_prop w "__VUE_INSTANCE__" ;;
          if truthy vue_instance then get_prop w "__VUE_INSTANCE__"
          else ret app
      else ret app
  | None => ret app
  end.

(** Lines 35-44: the throwaway app. *)
Definition make_temp_app (env : Env) (app : JsVal) : St JsVal :=
  if negb (truthy app) then
    try_catch
      (created <- lift (createApp env) ;;
       set_tempApp created ;;
       t <- gets tempApp ;;
       ret t)
      (fun e =>
         console_error "[Sentry] Failed to create temporary Vue app:" e ;;
         ret app)
  else ret app.

Section WithCallee.

(** [init-sentry.js] reaches [initSentry] through an import; the body
    of [ensureSentryInitialized] is first written over any function in
    that place. *)
Variable callee : JsVal -> JsVal -> JsVal -> St unit.

(** [init-sentry.js], lines 7-54. *)
Definition ensureSentryInitialized_with (env : Env) : St unit :=
  initialized <- gets sentryInitialized ;;
  if initialized then ret tt
  else
    try_catch
      (app <- locate_instance_app env ;;
       app <- locate_window_app env app ;;
       app <- make_temp_app env app ;;
       let options := JObj [("enabled", JBool true)] in
       emit (CallInitSentry app JNull options) ;;
       callee app JNull options ;;
       set_sentryInitialized true)
      (fun error => console_error "[Sentry] Failed to initialize:" error).

(** One call after the other, each in the surroundings it finds. *)
Fixpoint calls_with (envs : list Env) (s : ModuleState) : ModuleState :=
  match envs with
  | [] => s
  | env :: rest => calls_with rest (exec (ensureSentryInitialized_with env) s)
  end.

End WithCallee.

(** The function the module exports: the callee is [initSentry]. *)
Definition ensureSentryInitialized (env : Env) : St unit :=
  ensureSentryInitialized_with (initSentry env) env.

Fixpoint calls (envs : list Env) (s : ModuleState) : ModuleState :=
  match envs with
  | [] => s
  | env :: rest => calls rest (exec (ensureSentryInitialized env) s)
  end.

Definition is_init_call (e : Event) : bool :=
  match e with CallInitSentry _ _ _ => true | _ => false end.

(** How many times [initSentry] was invoked. *)
Definition init_calls (s : ModuleState) : nat :=
  length (filter is_init_call (trace s)).

(** [s'] differs from [s] by console lines and client calls at most: the
    flag is the same and [initSentry] was not invoked in between. *)
Definition quiet (s s' : ModuleState) : Prop :=
  sentryInitialized s' = sentryInitialized s /\ init_calls s' = init_calls s.

(** An [initSentry] that throws, and surroundings with nothing in them:
    no current instance, no [window], a client that raises no
    objection. *)
Definition throwing_initSentry : JsVal -> JsVal -> JsVal -> St unit :=
  fun _ _ _ => throw (new_Error (JStr "init failed")).

Definition bare_env : Env :=
  {| getCurrentInstance := Normal JNull;
     window := None;
     createApp := Normal (JObj []);
     node_env := Normal JUndefined;
     sdk := {| replayIntegration := fun _ => Normal (JObj []);
               init := fun _ => Normal tt;
               setUser := fun _ => Normal tt |} |}.

(** A client whose [init] throws. *)
Definition failing_env : Env :=
  {| getCurrentInstance := Normal JNull;
     window := None;
     createApp := Normal (JObj []);
     node_env := Normal JUndefined;
     sdk := {| replayIntegration := fun _ => Normal (JObj []);
               init := fun _ => Throw (new_Error (JStr "network unreachable"));
               setUser := fun _ => Normal tt |} |}.

End Sentry.

(* ===================================================================== *)
(** * The status poller ([components/Dashboard.vue]) *)
(* ===================================================================== *)

Module Dashboard.

(** [status], a reactive object of three fields.  They start as booleans
    and afterwards hold whatever the response carries. *)
Record Status : Type := mkStatus {
  enabled : JsVal;
  has_client : JsVal;
  running : JsVal
}.

(** The refs of the component, [refreshTimer] (the period, in
    milliseconds, of the interval it names) and what was written to the
    console. *)
Record State : Type := mkState {
  loading : bool;
  error : JsVal;
  initialDataLoaded : bool;
  lastRefreshedTimestamp : JsVal;
  status : Status;
  refreshTimer : option Z;
  console : list (string * JsVal)
}.

Definition initial : State :=
  {| loading := false;
     error := JNull;
     initialDataLoaded := false;
     lastRefreshedTimestamp := JNull;
     status := {| enabled := JBool false;
                  has_client := JBool false;
                  running := JBool false |};
     refreshTimer := None;
     console := [] |}.

(** How an awaited request ends. *)
Inductive Settled : Type :=
| Resolved (result : JsVal)
| Rejected (reason : JsVal).

(** [props.api] is the host's handle ([None] when it is [null]: calling
    [get] on it throws inside the [try]); [props.refreshInterval] is in
    seconds. *)
Record Props : Type := mkProps {
  api : option (string -> Settled);
  refreshInterval : Z
}.

Definition St := M State.

Definition set_loading (b : bool) : St unit :=
  modify (fun s => mkState b (error s) (initialDataLoaded s)
                     (lastRefreshedTimestamp s) (status s) (refreshTimer s)
                     (console s)).

Definition set_error (e : JsVal) : St unit :=
  modify (fun s => mkState (loading s) e (initialDataLoaded s)
                     (lastRefreshedTimestamp s) (status s) (refreshTimer s)
                     (console s)).

Definition set_initialDataLoaded (b : bool) : St unit :=
  modify (fun s => mkState (loading s) (error s) b
                     (lastRefreshedTimestamp s) (status s) (refreshTimer s)
                     (console s)).

Definition set_lastRefreshedTimestamp (t : JsVal) : St unit :=
  modify (fun s => mkState (loading s) (error s) (initialDataLoaded s)
                     t (status s) (refreshTimer s) (console s)).

Definition set_status (f : Status -> Status) : St unit :=
  modify (fun s => mkState (loading s) (error s) (initialDataLoaded s)
                     (lastRefreshedTimestamp s) (f (status s)) (refreshTimer s)
                     (console s)).

Definition set_refreshTimer (t : option Z) : St unit :=
  modify (fun s => mkState (loading s) (error s) (initialDataLoaded s)
                     (lastRefreshedTimestamp s) (status s) t (console s)).

Definition console_error (label : string) (detail : JsVal) : St unit :=
  modify (fun s => mkState (loading s) (error s) (initialDataLoaded s)
                     (lastRefreshedTimestamp s) (status s) (refreshTimer s)
                     (console s ++ [(label, detail)])).

Definition getPluginId : string := "P115StrmHelper".

Definition status_path : string := "plugin/" ++ getPluginId ++ "/get_status".

(** [props.api.get(path)] *)
Definition api_get (props : Props) (path : string) : Settled :=
  match api props with
  | Some get => get path
  | None => Rejected (TypeError_read JNull "get")
  end.

(** [await]: a fulfilled promise gives its value, a rejected one throws
    its reason. *)
Definition await (r : Settled) : St JsVal :=
  match r with
  | Resolved v => ret v
  | Rejected reason => throw reason
  end.

(** The test of line 148: [result && result.code === 0 && result.data]. *)
Definition accepted (result : JsVal) : bool :=
  truthy (js_and (js_and result
                         (JBool (strict_eq_num (get_field result "code") 0)))
                 (get_field result "data")).

(** Lines 148-158, with [now] the value of [Date.now()]. *)
Definition on_result (now : Z) (result : JsVal) : St unit :=
  if accepted result then
    data <- get_prop result "data" ;;
    v <- get_prop data "enabled" ;;
    set_status (fun st => mkStatus v (has_client st) (running st)) ;;
    data <- get_prop result "data" ;;
    v <- get_prop data "has_client" ;;
    set_status (fun st => mkStatus (enabled st) v (running st)) ;;
    data <- get_prop result "data" ;;
    v <- get_prop data "running" ;;
    set_status (fun st => mkStatus (enabled st) (has_client st) v) ;;
    set_initialDataLoaded true ;;
    set_lastRefreshedTimestamp (JNum now)
  else
    throw (new_Error (js_or (opt_field result "msg") (JStr "获取状态失败"))).

(** Lines 159-161. *)
Definition on_error (err : JsVal) : St unit :=
  console_error "获取仪表盘数据失败:" err ;;
  message <- get_prop err "message" ;;
  set_error (js_or message (JStr "获取数据失败")).

(** [fetchData] up to its only suspension point, the [await] of line
    146: lines 138-139 (the request itself is issued by the host's
    handle). *)
Definition fetchData_begin : St unit :=
  set_loading true ;;
  set_error JNull.

(** [fetchData] from the [await] on, once the request has settled:
    lines 141-164. *)
Definition fetchData_resume (now : Z) (response : Settled) : St unit :=
  try_catch_finally
    (result <- await response ;;
     on_result now result)
    on_error
    (set_loading false).

(** A refresh that nothing interleaves with. *)
Definition fetchData (props : Props) (now : Z) : St unit :=
  fetchData_begin ;;
  fetchData_resume now (api_get props status_path).

(** Lines 176-184, as far as this component's state goes: the first
    refresh starts and the interval is set. *)
Definition onMounted (props : Props) : St unit :=
  fetchData_begin ;;
  if (refreshInterval props >? 0)%Z
  then set_refreshTimer (Some (refreshInterval props * 1000)%Z)
  else ret tt.

(** Lines 187-192. *)
Definition onUnmounted : St unit :=
  t <- gets refreshTimer ;;
  match t with
  | Some _ => set_refreshTimer None
  | None => ret tt
  end.

(** What can happen to a mounted component, one event at a time: a
    refresh starts (timer tick or click), an awaited request settles, the
    component is unmounted. *)
Inductive Event : Type :=
| Refresh
| Response (now : Z) (response : Settled)
| Unmounted.

Definition step (ev : Event) : St unit :=
  match ev with
  | Refresh => fetchData_begin
  | Response now response => fetchData_resume now response
  | Unmounted => onUnmounted
  end.

Fixpoint run (evs : list Event) (s : State) : State :=
  match evs with
  | [] => s
  | ev :: rest => run rest (exec (step ev) s)
  end.

(** A response that line 148 accepts. *)
Definition successful (ev : Event) : bool :=
  match ev with
  | Response _ (Resolved result) => accepted result
  | _ => false
  end.

(** The part of the state a user of the component can see. *)
Definition visible (s : State) : bool * JsVal * bool * JsVal * Status :=
  (loading s, error s, initialDataLoaded s, lastRefreshedTimestamp s, status s).

Definition is_bool (v : JsVal) : bool :=
  match v with JBool _ => true | _ => false end.

Definition nonempty_string (v : JsVal) : bool :=
  match v with JStr s => negb (s =? "") | _ => false end.

(** The three fields of the snapshot, by the key they are copied from. *)
Inductive StatusKey : Type := KEnabled | KHasClient | KRunning.

Definition key_name (k : StatusKey) : string :=
  match k with
  | KEnabled => "enabled"
  | KHasClient => "has_client"
  | KRunning => "running"
  end.

Definition status_field (k : StatusKey) (st : Status) : JsVal :=
  match k with
  | KEnabled => enabled st
  | KHasClient => has_client st
  | KRunning => running st
  end.

(** The snapshot a response accepted at line 148 leaves behind. *)
Definition status_of (result : JsVal) : Status :=
  let data := get_field result "data" in
  {| enabled := get_field data "enabled";
     has_client := get_field data "has_client";
     running := get_field data "running" |}.

(** The text line 161 shows after line 157 has thrown for [result]. *)
Definition refusal_text (result : JsVal) : JsVal :=
  js_or (get_field
           (new_Error (js_or (opt_field result "msg") (JStr "获取状态失败")))
           "message")
        (JStr "获取数据失败").

(** Sample traffic: the response of the specification, the host handle
    that answers with it, one that rejects without a reason, and a
    response whose data lacks two of the three fields. *)
Definition sample_response : JsVal :=
  JObj [("code", JNum 0);
        ("data", JObj [("enabled", JBool true);
                       ("has_client", JBool false);
                       ("running", JBool true)])].

Definition partial_response : JsVal :=
  JObj [("code", JNum 0); ("data", JObj [("enabled", JBool true)])].

Definition answering (result : JsVal) : Props :=
  {| api := Some (fun _ => Resolved result); refreshInterval := 30 |}.

Definition rejecting (reason : JsVal) : Props :=
  {| api := Some (fun _ => Rejected reason); refreshInterval := 30 |}.

End Dashboard.

(* ===================================================================== *)
(** * The application shell ([App.vue]) *)
(* ===================================================================== *)

Module App.

(** What [currentComponent] can hold: a component, known by the module
    it was imported from, or nothing. *)
Inductive View : Type :=
| VUndefined
| VComponent (name : string).

Definition Page : View := VComponent "Page".
Definition Config : View := VComponent "Config".

(** [a === b] on components is identity. *)
Definition view_eq (a b : View) : bool :=
  match a, b with
  | VUndefined, VUndefined => true
  | VComponent n, VComponent m => (n =? m)
  | _, _ => false
  end.

(** [window.parent], as the guards of lines 45, 52 and 64 see it. *)
Inductive Parent : Type :=
| NoParent
| ParentWithoutPostMessage
| ParentWindow.

Definition can_post (p : Parent) : bool :=
  match p with ParentWindow => true | _ => false end.

(** The refs of [setup], the messages posted to the parent and the
    console. *)
Record State : Type := mkState {
  currentComponent : View;
  api : JsVal;
  posted : list JsVal;
  console : list (string * JsVal)
}.

Definition initial : State :=
  {| currentComponent := Page; api := JNull; posted := []; console := [] |}.

Definition St := M State.

Definition set_currentComponent (v : View) : St unit :=
  modify (fun s => mkState v (api s) (posted s) (console s)).

Definition set_api (v : JsVal) : St unit :=
  modify (fun s => mkState (currentComponent s) v (posted s) (console s)).

Definition console_log (label : string) (detail : JsVal) : St unit :=
  modify (fun s => mkState (currentComponent s) (api s) (posted s)
                     (console s ++ [(label, detail)])).

(** What a child hands to [save]: plain data, or a value that the
    structured clone of [postMessage] refuses (a function, a Vue reactive
    proxy, an object that holds one), known here by how it prints. *)
Inductive ConfigValue : Type :=
| PlainConfig (value : JsVal)
| Uncloneable (printed : string).

Definition DataCloneError (printed : string) : JsVal :=
  mk_error "DataCloneError"
    ("Failed to execute 'postMessage' on 'Window': " ++ printed
     ++ " could not be cloned.").

(** The parent receives a clone of the message. *)
Definition deliver (message : JsVal) : St unit :=
  modify (fun s => mkState (currentComponent s) (api s)
                     (posted s ++ [message]) (console s)).

(** [window.parent.postMessage({ type, data }, '*')], with [data] left
    out of the literal when there is none.  The message is cloned before
    it is sent: a [data] that cannot be cloned makes the call throw, and
    nothing is sent. *)
Definition postMessage (type : string) (data : option ConfigValue) : St unit :=
  match data with
  | None => deliver (JObj [("type", JStr type)])
  | Some (PlainConfig value) =>
      deliver (JObj [("type", JStr type); ("data", value)])
  | Some (Uncloneable printed) => throw (DataCloneError printed)
  end.

Definition when (b : bool) (m : St unit) : St unit :=
  if b then m else ret tt.

(** A [message] event, of which the handler reads [data] only. *)
Record MessageEvent : Type := mkMessageEvent { data : JsVal }.

(** [event.data && event.data.type === kind] *)
Definition has_type (event : MessageEvent) (kind : string) : bool :=
  truthy (js_and (data event)
                 (JBool (strict_eq_str (get_field (data event) "type") kind))).

(** Lines 25-36. *)
Definition handleMessage (event : MessageEvent) : St unit :=
  when (has_type event "api")
    (d <- get_prop (data event) "data" ;;
     set_api d ;;
     a <- gets api ;;
     console_log "收到API:" a) ;;
  when (has_type event "showConfig")
    (set_currentComponent Config).

(** Lines 39-41. *)
Definition switchComponent : St unit :=
  cur <- gets currentComponent ;;
  set_currentComponent (if view_eq cur Page then Config else Page).

(** Lines 44-48. *)
Definition closeModal (parent : Parent) : St unit :=
  when (can_post parent)
    (postMessage "close" None).

(** Lines 51-57. *)
Definition saveConfig (parent : Parent) (config : ConfigValue) : St unit :=
  when (can_post parent)
    (postMessage "save" (Some config)) ;;
  set_currentComponent Page.

(** Lines 60-67, after the listener is added. *)
Definition onMounted (parent : Parent) : St unit :=
  when (can_post parent)
    (postMessage "ready" None).

(** What reaches the mounted shell: a message from the host, or one of
    the three events its child emits. *)
Inductive Event : Type :=
| Message (event : MessageEvent)
| Switch
| Close (parent : Parent)
| Save (parent : Parent) (config : ConfigValue).

Definition step (ev : Event) : St unit :=
  match ev with
  | Message event => handleMessage event
  | Switch => switchComponent
  | Close parent => closeModal parent
  | Save parent config => saveConfig parent config
  end.

Fixpoint run (evs : list Event) (s : State) : State :=
  match evs with
  | [] => s
  | ev :: rest => run rest (exec (step ev) s)
  end.

(** The kind of an envelope: the string under [type], when the data is
    an object that has one. *)
Definition envelope_kind (event : MessageEvent) : option string :=
  match data event with
  | JObj fields =>
      match lookup "type" fields with
      | Some (JStr kind) => Some kind
      | _ => None
      end
  | _ => None
  end.

Definition is_api_envelope (ev : Event) : bool :=
  match ev with
  | Message event =>
      match envelope_kind event with
      | Some kind => (kind =? "api")
      | None => false
      end
  | _ => false
  end.

(** The handle an ['api'] envelope carries. *)
Definition carried_handle (ev : Event) : JsVal :=
  match ev with
  | Message event => get_field (data event) "data"
  | _ => JUndefined
  end.

(** The handle of the last ['api'] envelope of a sequence, [d] if there
    is none. *)
Fixpoint last_handle (evs : list Event) (d : JsVal) : JsVal :=
  match evs with
  | [] => d
  | ev :: rest =>
      last_handle rest (if is_api_envelope ev then carried_handle ev else d)
  end.

Definition is_api_log (entry : string * JsVal) : bool :=
  (fst entry =? "收到API:").

(** How many times the handler has assigned [api]: each assignment is
    followed by its console line. *)
Definition api_assignments (s : State) : nat :=
  length (filter is_api_log (console s)).

(** The view is one of the two components the shell imports. *)
Definition defined_view (v : View) : Prop := v = Page \/ v = Config.

(** Sample traffic: two host handles and the envelopes that carry them,
    an envelope of a kind the shell does not know, and a message without
    data. *)
Definition handle_1 : JsVal := JObj [("id", JNum 1)].
Definition handle_2 : JsVal := JObj [("id", JNum 2)].

Definition api_envelope (handle : JsVal) : MessageEvent :=
  {| data := JObj [("type", JStr "api"); ("data", handle)] |}.

Definition unknown_envelope : MessageEvent :=
  {| data := JObj [("type", JStr "ping"); ("data", JNum 7)] |}.

Definition empty_message : MessageEvent := {| data := JUndefined |}.

(** A configuration kept in a Vue reactive object and handed over as it
    is: a proxy, which cannot be cloned. *)
Definition reactive_config : ConfigValue := Uncloneable "#<Object>".

End App.

(* ===================================================================== *)
(** * Which app the diagnostics singleton attaches to *)
(* ===================================================================== *)

Module SentryApp.

Import Sentry.

(** The app of the current instance, [null] when there is none or
    [getCurrentInstance] throws. *)
Definition instance_app (env : Env) : JsVal :=
  match getCurrentInstance env with
  | Normal instance => app_of_instance instance
  | Throw _ => JNull
  end.

(** The app in the global slots of a window, [app] when there is
    none. *)
Definition slot_or (w app : JsVal) : JsVal :=
  if truthy (get_field w "__VUE_APP__") then get_field w "__VUE_APP__"
  else if truthy (get_field w "__VUE_INSTANCE__")
       then get_field w "__VUE_INSTANCE__"
       else app.

(** The app found before line 35: that of the current instance, else a
    global slot of [window]; [null] when there is none. *)
Definition found_app (env : Env) : JsVal :=
  match window env with
  | Some w =>
      if negb (truthy (instance_app env))
      then slot_or w (instance_app env)
      else instance_app env
  | None => instance_app env
  end.

(** The lookup of lines 27-33 reads a property of [null]: no app on the
    current instance and a [window] that is [null]. *)
Definition reads_null_window (env : Env) : bool :=
  negb (truthy (instance_app env))
  && match window env with Some JNull => true | _ => false end.

Definition enabled_options : JsVal := JObj [("enabled", JBool true)].

(** Surroundings with a current instance that knows its app, with an app
    in the global slot only, and with no app and a [createApp] that
    throws. *)
Definition host_app : JsVal := JObj [("name", JStr "host")].
Definition slot_app : JsVal := JObj [("name", JStr "slot")].

Definition env_with_instance : Env :=
  {| getCurrentInstance :=
       Normal (JObj [("appContext", JObj [("app", host_app)])]);
     window := Some (JObj [("__VUE_APP__", slot_app)]);
     createApp := Normal (JObj []);
     node_env := Normal (JStr "production");
     sdk := sdk bare_env |}.

(** Surroundings where [window] is declared and [null]. *)
Definition env_with_null_window : Env :=
  {| getCurrentInstance := Normal JNull;
     window := Some JNull;
     createApp := Normal (JObj []);
     node_env := Normal JUndefined;
     sdk := sdk bare_env |}.

Definition env_without_app_factory : Env :=
  {| getCurrentInstance := Throw (mk_error "Error" "no instance");
     window := None;
     createApp := Throw (mk_error "Error" "createApp failed");
     node_env := Normal JUndefined;
     sdk := sdk bare_env |}.

End SentryApp.

(* ===================================================================== *)
(** * Text search, as [String.prototype.includes] does it *)
(* ===================================================================== *)

Module Text.

(** [s.includes(needle)]: [needle] occurs somewhere in [s]. *)
Fixpoint includes (needle s : string) : bool :=
  String.prefix needle s
  || match s with
     | EmptyString => false
     | String _ rest => includes needle rest
     end.

(** [s.padStart(2, '0')] *)
Definition padStart2 (s : string) : string :=
  match String.length s with
  | 0%nat => "00"
  | 1%nat => "0" ++ s
  | _ => s
  end.

(** [recv.includes(needle)] as a method call on any value: strings
    search for a substring, arrays for an item; [null] and [undefined]
    have no properties and the other plain values no such method. *)
Definition not_a_function (what : string) : JsVal :=
  mk_error "TypeError" (what ++ " is not a function").

Definition call_includes {S} (recv : JsVal) (what needle : string) : M S bool :=
  match recv with
  | JUndefined | JNull => throw (TypeError_read recv "includes")
  | JStr s => ret (includes needle s)
  | JArr items => ret (existsb (fun x => strict_eq_str x needle) items)
  | _ => throw (not_a_function (what ++ ".includes"))
  end.

(** [a || b], [a && b] and [!a] on conditions that may throw: the right
    operand is evaluated only when it decides. *)
Definition or_else {S} (a b : M S bool) : M S bool :=
  x <- a ;; if x then ret true else b.

Definition and_then {S} (a b : M S bool) : M S bool :=
  x <- a ;; if x then b else ret false.

Definition not_ {S} (a : M S bool) : M S bool :=
  x <- a ;; ret (negb x).

End Text.

(* ===================================================================== *)
(** * The event filter handed to the client ([sentry.js], [beforeSend]) *)
(* ===================================================================== *)

Module Filter.

Import Text.

(** The filter has no state of its own. *)
Definition F := M unit.

(** Line 59:
    [event.request?.url || hint.originalException?.stack || '']. *)
Definition event_url (event hint : JsVal) : F JsVal :=
  request <- get_prop event "request" ;;
  let url := opt_field request "url" in
  if truthy url then ret url
  else
    exception <- get_prop hint "originalException" ;;
    ret (js_or (opt_field exception "stack") (JStr "")).

(** Lines 60-62. *)
Definition isPluginError (url : JsVal) : F bool :=
  or_else (call_includes url "url" "p115strmhelper")
          (call_includes url "url" "115strmhelper").

(** Lines 64-68: whether the function returns [null] there. *)
Definition foreign_plugin (url : JsVal) (plugin : bool) : F bool :=
  and_then (ret (negb plugin))
    (and_then (ret (truthy url))
      (and_then (not_ (call_includes url "url" "p115strmhelper"))
        (and_then (not_ (call_includes url "url" "115strmhelper"))
          (and_then (call_includes url "url" "/plugins/")
                    (not_ (call_includes url "url" "p115strmhelper")))))).

(** Lines 73-83: the condition of the first test on the exception. *)
Definition noisy_message (error : JsVal) : F bool :=
  message <- get_prop error "message" ;;
  and_then (ret (truthy message))
    (or_else (call_includes message "error.message" "ResizeObserver loop")
      (or_else (call_includes message "error.message" "Non-Error promise rejection")
        (or_else (call_includes message "error.message" "NetworkError")
          (or_else (call_includes message "error.message" "Failed to fetch")
            (or_else (call_includes message "error.message" "Loading chunk")
                     (call_includes message "error.message" "ChunkLoadError")))))).

(** Line 87. *)
Definition vue_warning (error : JsVal) : F bool :=
  name <- get_prop error "name" ;;
  or_else (ret (strict_eq_str name "Vue warn"))
    (message <- get_prop error "message" ;;
     call_includes message "error.message" "[Vue warn]").

(** [sentry.js], lines 58-93: the event to send, or [null] to drop it. *)
Definition beforeSend (event hint : JsVal) : F JsVal :=
  url <- event_url event hint ;;
  plugin <- isPluginError url ;;
  foreign <- foreign_plugin url plugin ;;
  if foreign then ret JNull
  else if truthy (js_and hint (get_field hint "originalException")) then
    error <- get_prop hint "originalException" ;;
    noisy <- noisy_message error ;;
    if noisy then ret JNull
    else
      warning <- vue_warning error ;;
      if warning then ret JNull else ret event
  else ret event.

(** Lines 70-92 by themselves: what is left to do once the address has
    let the event through. *)
Definition exception_stage (event hint : JsVal) : F JsVal :=
  if truthy (js_and hint (get_field hint "originalException")) then
    error <- get_prop hint "originalException" ;;
    noisy <- noisy_message error ;;
    if noisy then ret JNull
    else
      warning <- vue_warning error ;;
      if warning then ret JNull else ret event
  else ret event.

(** The fragments of line 76-81, for stating what is dropped. *)
Definition noise : list string :=
  ["ResizeObserver loop"; "Non-Error promise rejection"; "NetworkError";
   "Failed to fetch"; "Loading chunk"; "ChunkLoadError"].

Definition is_noise (message : string) : bool :=
  existsb (fun fragment => includes fragment message) noise.

(** An address under [/plugins/] that is not this plugin's. *)
Definition foreign_url (url : string) : bool :=
  includes "/plugins/" url && negb (includes "115strmhelper" url).

(** What the filter may answer for [event]: drop it or pass it on as it
    is. *)
Definition verdict_on (event : JsVal) (c : Completion JsVal) : Prop :=
  match c with
  | Normal r => r = JNull \/ r = event
  | Throw _ => True
  end.

(** Sample traffic: an event of this plugin, one of another plugin, an
    ordinary error, a noisy one and an exception that is a bare string. *)
Definition own_event : JsVal :=
  JObj [("request",
         JObj [("url", JStr "https://host/plugins/p115strmhelper/page")])].

Definition foreign_event : JsVal :=
  JObj [("request", JObj [("url", JStr "https://host/plugins/other/page")])].

Definition hint_of (exception : JsVal) : JsVal :=
  JObj [("originalException", exception)].

Definition ordinary_error : JsVal := mk_error "Error" "share code expired".

Definition noisy_error : JsVal :=
  mk_error "TypeError" "Failed to fetch dynamically imported module".

End Filter.

(* ===================================================================== *)
(** * The chunking rule of the build ([vite.config.js], [manualChunks]) *)
(* ===================================================================== *)

Module Build.

Import Text.

(** Lines 43-69 of the build configuration; [None] is the [undefined]
    of a call that returns nothing. *)
Definition manualChunks (id : string) : option string :=
  if includes "node_modules" id then
    if includes "@sentry" id then Some "sentry"
    else if includes "echarts" id || includes "vue-echarts" id then Some "echarts"
    else if includes "vuetify" id then Some "vuetify"
    else if includes "vue" id then Some "vue-vendor"
    else if includes "cron" id || includes "cronstrue" id then Some "cron-vendor"
    else Some "vendor"
  else None.

Definition chunk_names : list string :=
  ["sentry"; "echarts"; "vuetify"; "vue-vendor"; "cron-vendor"; "vendor"].

(** The same rule with one test for each chunk, to compare with. *)
Definition manualChunks_plain (id : string) : option string :=
  if includes "node_modules" id then
    if includes "@sentry" id then Some "sentry"
    else if includes "echarts" id then Some "echarts"
    else if includes "vuetify" id then Some "vuetify"
    else if includes "vue" id then Some "vue-vendor"
    else if includes "cron" id then Some "cron-vendor"
    else Some "vendor"
  else None.

End Build.

(* ===================================================================== *)
(** * What the status poller renders ([Dashboard.vue], template) *)
(* ===================================================================== *)

Module DashboardView.

Import Text.
Import Dashboard.

(** The four branches of the [v-if] chain of lines 11-72.  The data
    branch shows each field by its truthiness. *)
Inductive Display : Type :=
| InitialLoading
| ErrorShown (text : JsVal)
| DataShown (enabled has_client running : bool)
| NoData.

Definition display (s : State) : Display :=
  if loading s && negb (initialDataLoaded s) then InitialLoading
  else if truthy (error s) then ErrorShown (js_or (error s) (JStr "数据加载失败"))
  else if initialDataLoaded s
       then DataShown (truthy (enabled (status s)))
                      (truthy (has_client (status s)))
                      (truthy (running (status s)))
       else NoData.

Section LocalTime.

(** [new Date(t).getHours()], [.getMinutes()] and [.getSeconds()]: the
    platform's reading of a timestamp in the local time zone. *)
Variable getHours getMinutes getSeconds : JsVal -> JsVal.

(** Lines 168-173. *)
Definition lastRefreshedTimeDisplay (s : State) : string :=
  if negb (truthy (lastRefreshedTimestamp s)) then ""
  else
    let date := lastRefreshedTimestamp s in
    "更新于: " ++ padStart2 (ToString (getHours date))
    ++ ":" ++ padStart2 (ToString (getMinutes date))
    ++ ":" ++ padStart2 (ToString (getSeconds date)).

End LocalTime.

(** The time of day in UTC, one reading of a timestamp in
    milliseconds. *)
Definition utc_part (unit modulus : Z) (t : JsVal) : JsVal :=
  match t with
  | JNum n => JNum ((n / unit) mod modulus)
  | _ => JNaN
  end.

Definition utc_hours : JsVal -> JsVal := utc_part 3600000 24.
Definition utc_minutes : JsVal -> JsVal := utc_part 60000 60.
Definition utc_seconds : JsVal -> JsVal := utc_part 1000 60.

(** A number below one hundred written with two decimal digits, as a
    clock shows it. *)
Definition decimal_digit (d : Z) : Ascii.ascii :=
  Ascii.ascii_of_nat (48 + Z.to_nat d).

Definition two_digits (n : Z) : string :=
  String (decimal_digit (n / 10)) (String (decimal_digit (n mod 10)) "").

(** The stamp of the last accepted response of a sequence, [d] if there
    is none. *)
Fixpoint last_stamp (evs : list Event) (d : JsVal) : JsVal :=
  match evs with
  | [] => d
  | ev :: rest =>
      last_stamp rest
        (match ev with
         | Response now (Resolved result) =>
             if accepted result then JNum now else d
         | _ => d
         end)
  end.

(** A failure that line 161 can report: a response that line 148
    refuses, or a rejection whose reason is an actual value; and the text
    it reports. *)
Definition reported (response : Settled) : bool :=
  match response with
  | Resolved result => negb (accepted result)
  | Rejected reason => negb (nullish reason)
  end.

Definition failure_text (response : Settled) : JsVal :=
  match response with
  | Resolved result => refusal_text result
  | Rejected reason => js_or (get_field reason "message") (JStr "获取数据失败")
  end.

(** The data branch for a snapshot. *)
Definition data_shown (st : Status) : Display :=
  DataShown (truthy (enabled st)) (truthy (has_client st)) (truthy (running st)).

End DashboardView.

(* ===================================================================== *)
(** * What the shell sends to its host *)
(* ===================================================================== *)

Module AppTraffic.

Import App.

(** The envelopes one event makes the shell post. *)
Definition outgoing (ev : Event) : list JsVal :=
  match ev with
  | Message _ | Switch => []
  | Close parent =>
      if can_post parent then [JObj [("type", JStr "close")]] else []
  | Save parent (PlainConfig value) =>
      if can_post parent
      then [JObj [("type", JStr "save"); ("data", value)]]
      else []
  | Save _ (Uncloneable _) => []
  end.

Definition is_showConfig (event : MessageEvent) : bool :=
  match envelope_kind event with
  | Some kind => (kind =? "showConfig")
  | None => false
  end.

End AppTraffic.

(* ===================================================================== *)
(** * Properties of the diagnostics singleton *)
(* ===================================================================== *)

Section SentryFacts.

Import Sentry.

Lemma quiet_refl s : quiet s s.
Proof. split; reflexivity. Qed.

Lemma quiet_trans s1 s2 s3 : quiet s1 s2 -> quiet s2 s3 -> quiet s1 s3.
Proof. intros [A B] [C D]; split; congruence. Qed.

Lemma init_calls_snoc b t tr e :
  init_calls (mkModuleState b t (tr ++ [e]))
  = (init_calls (mkModuleState b t tr) + (if is_init_call e then 1 else 0))%nat.
Proof.
  unfold init_calls; simpl. rewrite filter_app, length_app; simpl.
  destruct (is_init_call e); reflexivity.
Qed.

Lemma quiet_emit e s :
  is_init_call e = false -> quiet s (exec (emit e) s).
Proof.
  intros He. destruct s as [b t tr]. split; [reflexivity|].
  unfold exec, emit, modify; simpl. rewrite init_calls_snoc, He. simpl.
  unfold init_calls; simpl. lia.
Qed.

Lemma quiet_set_tempApp a s : quiet s (exec (set_tempApp a) s).
Proof. destruct s; split; reflexivity. Qed.

(** Closes [quiet s s'] when [s'] is [s] with console lines and client
    calls appended to its trace. *)
Ltac solve_quiet :=
  split; [reflexivity|];
  unfold init_calls, console_error, emit, modify; simpl;
  rewrite ?filter_app; simpl; rewrite ?app_nil_r; reflexivity.

(** Looking for the app of the current instance never throws and leaves
    the module state alone. *)
Lemma locate_instance_app_total env s :
  exists a, locate_instance_app env s = (Normal a, s).
Proof.
  unfold locate_instance_app, try_catch, bind, lift, ret.
  destruct (getCurrentInstance env); eauto.
Qed.

(** Neither does making the throwaway app throw. *)
Lemma make_temp_app_total env app s :
  exists a s', make_temp_app env app s = (Normal a, s') /\ quiet s s'.
Proof.
  unfold make_temp_app. destruct (truthy app); simpl.
  - exists app, s. split; [reflexivity | apply quiet_refl].
  - unfold try_catch, bind, lift. destruct (createApp env) as [created|e]; simpl.
    + eexists _, _. split; [reflexivity|]. apply (quiet_set_tempApp created s).
    + eexists _, _. split; [reflexivity|]. solve_quiet.
Qed.

(** [initSentry], called as [init-sentry.js] calls it, returns normally
    whatever the client does: every failure of the client is caught and
    logged inside it. *)
Lemma initSentry_total env app s :
  exists s', initSentry env app JNull (JObj [("enabled", JBool true)]) s
             = (Normal tt, s') /\ quiet s s'.
Proof.
  unfold initSentry; simpl.
  unfold try_catch, bind, lift, ret, get_prop; simpl.
  destruct (node_env env) as [node|e]; simpl.
  2:{ eexists; split; [reflexivity|]. solve_quiet. }
  destruct (replayIntegration (sdk env) _) as [replay|e]; simpl.
  2:{ eexists; split; [reflexivity|]. solve_quiet. }
  destruct (init (sdk env) _) as [[]|e]; simpl.
  2:{ eexists; split; [reflexivity|]. solve_quiet. }
  destruct (setUser (sdk env) _) as [[]|e]; simpl.
  - eexists; split; [reflexivity|]. solve_quiet.
  - eexists; split; [reflexivity|]. solve_quiet.
Qed.

(** Lines 13-25 as one step. *)
Lemma locate_instance_app_spec env s :
  locate_instance_app env s = (Normal (SentryApp.instance_app env), s).
Proof.
  unfold locate_instance_app, SentryApp.instance_app, try_catch, bind, lift, ret.
  destruct (getCurrentInstance env); reflexivity.
Qed.

(** Lines 27-33 as one step: the lookup throws when it reads a property
    of a [null] window, and otherwise gives the app of the slots, or the
    one it was given. *)
Lemma locate_window_app_spec env s :
  locate_window_app env (SentryApp.instance_app env) s
  = if SentryApp.reads_null_window env
    then (Throw (TypeError_read JNull "__VUE_APP__"), s)
    else (Normal (SentryApp.found_app env), s).
Proof.
  unfold locate_window_app, SentryApp.reads_null_window, SentryApp.found_app,
    window_defined.
  destruct (window env) as [w|]; [|rewrite andb_false_r; reflexivity].
  destruct (truthy (SentryApp.instance_app env)); cbn [negb andb];
    [destruct w; reflexivity|].
  unfold SentryApp.slot_or, bind, get_prop, ret.
  destruct w; cbn [nullish get_field]; try reflexivity.
  destruct (truthy
              match lookup "__VUE_APP__" fields with
              | Some v => v
              | None => JUndefined
              end); [reflexivity|].
  destruct (truthy
              match lookup "__VUE_INSTANCE__" fields with
              | Some v => v
              | None => JUndefined
              end); reflexivity.
Qed.

(** Whatever stands in the place of [initSentry], nothing it throws
    reaches the caller of [ensureSentryInitialized]. *)
Lemma ensureSentryInitialized_with_never_throws callee env s :
  completion (ensureSentryInitialized_with callee env) s = Normal tt.
Proof.
  unfold completion, ensureSentryInitialized_with, bind, gets; simpl.
  destruct (sentryInitialized s); [reflexivity|].
  unfold try_catch, bind.
  rewrite locate_instance_app_spec, locate_window_app_spec.
  destruct (SentryApp.reads_null_window env); [reflexivity|].
  destruct (make_temp_app_total env (SentryApp.found_app env) s)
    as (a' & s1 & -> & _).
  destruct (callee a' JNull _ _) as [[[]|e] s2]; reflexivity.
Qed.

(** Once the flag is set a call does nothing at all. *)
Lemma ensureSentryInitialized_with_done callee env s :
  sentryInitialized s = true ->
  ensureSentryInitialized_with callee env s = (Normal tt, s).
Proof.
  intros H. unfold ensureSentryInitialized_with, bind, gets; simpl.
  rewrite H. reflexivity.
Qed.

(** A call that finds the flag unset either invokes [initSentry] once
    and sets the flag, or, when the lookup of lines 27-33 throws, does
    not invoke it and leaves the flag unset. *)
Lemma ensureSentryInitialized_first env s :
  sentryInitialized s = false ->
  sentryInitialized (exec (ensureSentryInitialized env) s)
  = negb (SentryApp.reads_null_window env)
  /\ init_calls (exec (ensureSentryInitialized env) s)
     = (init_calls s + (if SentryApp.reads_null_window env then 0 else 1))%nat.
Proof.
  intros H.
  unfold exec, ensureSentryInitialized, ensureSentryInitialized_with, bind, gets.
  simpl. rewrite H. unfold try_catch, bind.
  rewrite locate_instance_app_spec, locate_window_app_spec.
  destruct (SentryApp.reads_null_window env).
  - simpl. split; [exact H|].
    unfold init_calls; simpl. rewrite filter_app, length_app. simpl. lia.
  - destruct (make_temp_app_total env (SentryApp.found_app env) s)
      as (a' & s1 & -> & [_ Q1]).
    match goal with |- context [initSentry env a' JNull ?o ?st] =>
      destruct (initSentry_total env a' st) as (s2 & -> & [_ Q2]) end.
    simpl. split; [reflexivity|].
    unfold init_calls in *; simpl in *. rewrite Q2, filter_app, length_app.
    simpl. lia.
Qed.

Lemma calls_done envs s :
  sentryInitialized s = true -> calls envs s = s.
Proof.
  intros H. induction envs as [|env rest IH]; simpl; [reflexivity|].
  unfold exec, ensureSentryInitialized.
  rewrite (ensureSentryInitialized_with_done _ _ _ H). exact IH.
Qed.

(** The flag tells whether [initSentry] has been invoked, and it has
    been invoked once at most: this holds initially and every call
    keeps it. *)
Lemma calls_flag_counts envs s :
  sentryInitialized s = (init_calls s =? 1)%nat ->
  (init_calls s <= 1)%nat ->
  sentryInitialized (calls envs s) = (init_calls (calls envs s) =? 1)%nat
  /\ (init_calls s <= init_calls (calls envs s) <= 1)%nat.
Proof.
  revert s. induction envs as [|env rest IH]; intros s F B; simpl.
  - split; [exact F | lia].
  - destruct (sentryInitialized s) eqn:I.
    + unfold exec, ensureSentryInitialized.
      rewrite (ensureSentryInitialized_with_done _ _ _ I). simpl.
      apply IH; [rewrite I; exact F | exact B].
    + destruct (ensureSentryInitialized_first env s I) as [F1 C1].
      symmetry in F. apply Nat.eqb_neq in F.
      assert (Z : init_calls s = 0%nat) by lia.
      destruct (IH (exec (ensureSentryInitialized env) s)) as [F2 B2].
      * rewrite F1, C1, Z.
        destruct (SentryApp.reads_null_window env); reflexivity.
      * rewrite C1, Z. destruct (SentryApp.reads_null_window env); simpl; lia.
      * split; [exact F2|]. rewrite C1 in B2. lia.
Qed.

(** With another function in the place of [initSentry], one that
    throws, line 50 is skipped: the flag stays unset and the second call
    invokes that function again.  The [initSentry] of [sentry.js] is not
    such a function ([initSentry_total]). *)
Lemma ensureSentryInitialized_retries_after_throw :
  sentryInitialized
    (calls_with throwing_initSentry [bare_env] initial) = false
  /\ ~ (init_calls
          (calls_with throwing_initSentry [bare_env; bare_env] initial) <= 1)%nat.
Proof.
  split; [reflexivity|].
  vm_compute. intros H. inversion H as [|? H1]. inversion H1.
Qed.

(** C1: over every sequence of calls of [ensureSentryInitialized], in
    whatever surroundings and whatever the Sentry client does (its
    [init] may throw), [initSentry] is invoked at most once.  The flag
    is set exactly when [initSentry] has been invoked: an attempt counts
    as the one attempt whether or not the client failed in it, because
    [initSentry], called as line 46 calls it, catches the failure and
    never throws itself; and whatever calls follow ([more]) invoke
    nothing further once it has been invoked. *)
Theorem ensureSentryInitialized_at_most_once
  (envs more : list Env) (env : Env) (app : JsVal) (s : ModuleState) :
  (init_calls (calls envs initial) <= 1)%nat
  /\ sentryInitialized (calls envs initial)
     = (init_calls (calls envs initial) =? 1)%nat
  /\ (init_calls (calls envs initial)
      <= init_calls (calls (envs ++ more) initial) <= 1)%nat
  /\ (if sentryInitialized (calls envs initial)
      then calls (envs ++ more) initial = calls envs initial
      else True)
  /\ completion (initSentry env app JNull (JObj [("enabled", JBool true)])) s
     = Normal tt.
Proof.
  assert (A : forall l l' st, calls (l ++ l') st = calls l' (calls l st)).
  { induction l as [|x l IH]; intros l' st; simpl; [reflexivity | apply IH]. }
  destruct (calls_flag_counts envs initial eq_refl (Nat.le_0_l _)) as [F B].
  split; [lia|]. split; [exact F|].
  split.
  - rewrite A.
    destruct (calls_flag_counts more (calls envs initial) F (proj2 B)) as [_ B2].
    exact B2.
  - split.
    + destruct (sentryInitialized (calls envs initial)) eqn:Fl; [|exact I].
      rewrite A. apply calls_done, Fl.
    + unfold completion.
      destruct (initSentry_total env app s) as (s' & -> & _). reflexivity.
Qed.

(** A client failure on the first call: the attempt is logged, the flag
    is set, and the second call does nothing. *)
Example failed_client_init_is_not_retried :
  trace (calls [failing_env; bare_env] initial)
  = trace (calls [failing_env] initial)
  /\ init_calls (calls [failing_env; bare_env] initial) = 1%nat.
Proof. split; reflexivity. Qed.

End SentryFacts.

(* ===================================================================== *)
(** * Properties of the status poller *)
(* ===================================================================== *)

Section DashboardFacts.

Import Dashboard.

Lemma truthy_not_nullish v : truthy v = true -> nullish v = false.
Proof. destruct v; simpl; intros H; congruence. Qed.

(** Line 148, conjunct by conjunct. *)
Lemma accepted_spec result :
  accepted result
  = truthy result
    && strict_eq_num (get_field result "code") 0
    && truthy (get_field result "data").
Proof.
  unfold accepted, js_and.
  destruct (truthy result) eqn:T; simpl.
  - destruct (strict_eq_num (get_field result "code") 0); reflexivity.
  - rewrite T. exact T.
Qed.

Lemma accepted_inv result :
  accepted result = true ->
  nullish result = false /\ nullish (get_field result "data") = false.
Proof.
  rewrite accepted_spec. intros H.
  apply andb_true_iff in H as [H D]. apply andb_true_iff in H as [R _].
  split; apply truthy_not_nullish; assumption.
Qed.

Lemma accepted_of_shape result :
  get_field result "code" = JNum 0 ->
  truthy (get_field result "data") = true ->
  accepted result = true.
Proof.
  intros C D. rewrite accepted_spec, C, D.
  destruct result; simpl in C; try discriminate. reflexivity.
Qed.

(** The continuation of [fetchData] on an accepted response. *)
Lemma fetchData_resume_accepted now result s :
  accepted result = true ->
  fetchData_resume now (Resolved result) s
  = (Normal tt,
     mkState false (error s) true (JNum now) (status_of result)
       (refreshTimer s) (console s)).
Proof.
  intros A. destruct (accepted_inv result A) as [NR ND].
  unfold fetchData_resume, try_catch_finally, try_finally, try_catch,
    await, on_result, bind, ret, get_prop.
  rewrite A, NR.
  repeat (unfold ret, set_status, modify; cbv beta iota; rewrite ?ND).
  destruct s; reflexivity.
Qed.

(** On a response that line 148 refuses. *)
Lemma fetchData_resume_refused now result s :
  accepted result = false ->
  fetchData_resume now (Resolved result) s
  = (Normal tt,
     mkState false (refusal_text result) (initialDataLoaded s)
       (lastRefreshedTimestamp s) (status s) (refreshTimer s)
       (console s
        ++ [("获取仪表盘数据失败:",
             new_Error (js_or (opt_field result "msg") (JStr "获取状态失败")))])).
Proof.
  intros A.
  unfold fetchData_resume, try_catch_finally, try_finally, try_catch,
    await, on_result, bind, ret.
  rewrite A. destruct s; reflexivity.
Qed.

(** On a rejection whose reason is an actual value. *)
Lemma fetchData_resume_rejected now reason s :
  nullish reason = false ->
  fetchData_resume now (Rejected reason) s
  = (Normal tt,
     mkState false (js_or (get_field reason "message") (JStr "获取数据失败"))
       (initialDataLoaded s) (lastRefreshedTimestamp s) (status s)
       (refreshTimer s)
       (console s ++ [("获取仪表盘数据失败:", reason)])).
Proof.
  intros N.
  unfold fetchData_resume, try_catch_finally, try_finally, try_catch,
    await, on_error, bind, ret, throw, get_prop, console_error, modify.
  rewrite N. destruct s; reflexivity.
Qed.

(** On a rejection with [null] or [undefined]: line 161 reads
    [err.message] and throws; only the [finally] clause still runs. *)
Lemma fetchData_resume_rejected_nullish now reason s :
  nullish reason = true ->
  fetchData_resume now (Rejected reason) s
  = (Throw (TypeError_read reason "message"),
     mkState false (error s) (initialDataLoaded s)
       (lastRefreshedTimestamp s) (status s) (refreshTimer s)
       (console s ++ [("获取仪表盘数据失败:", reason)])).
Proof.
  intros N.
  unfold fetchData_resume, try_catch_finally, try_finally, try_catch,
    await, on_error, bind, ret, throw, get_prop, console_error, modify.
  rewrite N. destruct s; reflexivity.
Qed.

Lemma refusal_text_nonempty result :
  nonempty_string (refusal_text result) = true.
Proof.
  unfold refusal_text, new_Error, mk_error, get_field. simpl.
  unfold js_or at 1. simpl.
  match goal with |- context [negb (?m =? "")] => destruct (m =? "") eqn:E end;
    simpl; [reflexivity | rewrite E; reflexivity].
Qed.

Lemma js_or_truthy a b : truthy b = true -> truthy (js_or a b) = true.
Proof. intros H. unfold js_or. destruct (truthy a) eqn:E; assumption. Qed.

Lemma fetchData_begin_spec s :
  fetchData_begin s
  = (Normal tt,
     mkState true JNull (initialDataLoaded s) (lastRefreshedTimestamp s)
       (status s) (refreshTimer s) (console s)).
Proof. destruct s; reflexivity. Qed.

Lemma fetchData_unfold props now s :
  fetchData props now s
  = fetchData_resume now (api_get props status_path) (exec fetchData_begin s).
Proof.
  unfold fetchData, bind, exec. rewrite fetchData_begin_spec. reflexivity.
Qed.

Lemma fetchData_accepted props now s result :
  api_get props status_path = Resolved result ->
  accepted result = true ->
  fetchData props now s
  = (Normal tt,
     mkState false JNull true (JNum now) (status_of result)
       (refreshTimer s) (console s)).
Proof.
  intros G A. rewrite fetchData_unfold, G, fetchData_resume_accepted by assumption.
  unfold exec. rewrite fetchData_begin_spec. reflexivity.
Qed.

Lemma fetchData_refused props now s result :
  api_get props status_path = Resolved result ->
  accepted result = false ->
  fetchData props now s
  = (Normal tt,
     mkState false (refusal_text result) (initialDataLoaded s)
       (lastRefreshedTimestamp s) (status s) (refreshTimer s)
       (console s
        ++ [("获取仪表盘数据失败:",
             new_Error (js_or (opt_field result "msg") (JStr "获取状态失败")))])).
Proof.
  intros G A. rewrite fetchData_unfold, G, fetchData_resume_refused by assumption.
  unfold exec. rewrite fetchData_begin_spec. reflexivity.
Qed.

Lemma fetchData_rejected props now s reason :
  api_get props status_path = Rejected reason ->
  nullish reason = false ->
  fetchData props now s
  = (Normal tt,
     mkState false (js_or (get_field reason "message") (JStr "获取数据失败"))
       (initialDataLoaded s) (lastRefreshedTimestamp s) (status s)
       (refreshTimer s)
       (console s ++ [("获取仪表盘数据失败:", reason)])).
Proof.
  intros G N. rewrite fetchData_unfold, G, fetchData_resume_rejected by assumption.
  unfold exec. rewrite fetchData_begin_spec. reflexivity.
Qed.

Lemma fetchData_rejected_nullish props now s reason :
  api_get props status_path = Rejected reason ->
  nullish reason = true ->
  fetchData props now s
  = (Throw (TypeError_read reason "message"),
     mkState false JNull (initialDataLoaded s)
       (lastRefreshedTimestamp s) (status s) (refreshTimer s)
       (console s ++ [("获取仪表盘数据失败:", reason)])).
Proof.
  intros G N.
  rewrite fetchData_unfold, G, fetchData_resume_rejected_nullish by assumption.
  unfold exec. rewrite fetchData_begin_spec. reflexivity.
Qed.

Lemma onUnmounted_spec s :
  onUnmounted s
  = (Normal tt,
     mkState (loading s) (error s) (initialDataLoaded s)
       (lastRefreshedTimestamp s) (status s) None (console s)).
Proof. destruct s as [l e i t st [z|] c]; reflexivity. Qed.

(** The continuation of [fetchData] neither reads nor writes the timer:
    what it does to the visible state and how it completes are the same
    whatever [refreshTimer] holds. *)
Lemma fetchData_resume_ignores_timer now response l e i t st c timer timer' :
  completion (fetchData_resume now response) (mkState l e i t st timer c)
  = completion (fetchData_resume now response) (mkState l e i t st timer' c)
  /\ visible (exec (fetchData_resume now response) (mkState l e i t st timer c))
     = visible (exec (fetchData_resume now response) (mkState l e i t st timer' c)).
Proof.
  unfold completion, exec.
  destruct response as [result|reason].
  - destruct (accepted result) eqn:A.
    + rewrite !fetchData_resume_accepted by assumption. split; reflexivity.
    + rewrite !fetchData_resume_refused by assumption. split; reflexivity.
  - destruct (nullish reason) eqn:N.
    + rewrite !fetchData_resume_rejected_nullish by assumption. split; reflexivity.
    + rewrite !fetchData_resume_rejected by assumption. split; reflexivity.
Qed.

Lemma fetchData_resume_resets_loading now response s :
  loading (exec (fetchData_resume now response) s) = false.
Proof.
  unfold exec. destruct response as [result|reason].
  - destruct (accepted result) eqn:A.
    + rewrite fetchData_resume_accepted by assumption. reflexivity.
    + rewrite fetchData_resume_refused by assumption. reflexivity.
  - destruct (nullish reason) eqn:N.
    + rewrite fetchData_resume_rejected_nullish by assumption. reflexivity.
    + rewrite fetchData_resume_rejected by assumption. reflexivity.
Qed.

(** C2, as stated, fails: the component mounts and starts its first
    refresh, is unmounted while the request is in flight, and then the
    response of the specification arrives.  The continuation writes the
    status fields, [initialDataLoaded], [lastRefreshedTimestamp] and
    [loading]: the visible state is not what the unmount left. *)
Lemma late_response_after_unmount_mutates_state :
  visible
    (exec (fetchData_resume 1700 (Resolved sample_response))
       (exec onUnmounted (exec (onMounted (answering sample_response)) initial)))
  <> visible
       (exec onUnmounted (exec (onMounted (answering sample_response)) initial)).
Proof. vm_compute. discriminate. Qed.

(** C2, amended: [onUnmounted] clears the refresh timer and nothing else;
    there is no guard on the continuation of [fetchData].  A response
    that settles after the unmount is processed exactly as in a mounted
    component: the continuation completes the same way and leaves the
    same visible state, with [loading] reset to [false]; a resolved
    response that line 148 accepts overwrites the status fields, sets
    [initialDataLoaded] and stamps [lastRefreshedTimestamp], and one it
    refuses sets [error]. *)
Theorem late_response_is_processed_after_unmount
  (s : State) (now : Z) (response : Settled) (result : JsVal) :
  visible (exec onUnmounted s) = visible s
  /\ completion (fetchData_resume now response) (exec onUnmounted s)
     = completion (fetchData_resume now response) s
  /\ visible (exec (fetchData_resume now response) (exec onUnmounted s))
     = visible (exec (fetchData_resume now response) s)
  /\ loading (exec (fetchData_resume now response) (exec onUnmounted s)) = false
  /\ visible (exec (fetchData_resume now (Resolved result)) (exec onUnmounted s))
     = if accepted result
       then (false, error s, true, JNum now, status_of result)
       else (false, refusal_text result, initialDataLoaded s,
             lastRefreshedTimestamp s, status s).
Proof.
  assert (U : exec onUnmounted s
              = mkState (loading s) (error s) (initialDataLoaded s)
                  (lastRefreshedTimestamp s) (status s) None (console s))
    by (unfold exec; rewrite onUnmounted_spec; reflexivity).
  rewrite !U. clear U.
  split; [reflexivity|].
  destruct s as [l e i t st timer c]; simpl.
  destruct (fetchData_resume_ignores_timer now response l e i t st c None timer)
    as [C V].
  split; [exact C|]. split; [exact V|].
  split; [apply fetchData_resume_resets_loading|].
  unfold exec. destruct (accepted result) eqn:A.
  - rewrite fetchData_resume_accepted by assumption. reflexivity.
  - rewrite fetchData_resume_refused by assumption. reflexivity.
Qed.

(** A refresh answered by a response that line 148 refuses (falsy
    result, [code] other than [0], no [data]): [error] is a non-empty
    string, the snapshot keeps its values, [loading] is reset. *)
Lemma fetchData_refused_response props now s result :
  api_get props status_path = Resolved result ->
  accepted result = false ->
  completion (fetchData props now) s = Normal tt
  /\ nonempty_string (error (exec (fetchData props now) s)) = true
  /\ status (exec (fetchData props now) s) = status s
  /\ loading (exec (fetchData props now) s) = false.
Proof.
  intros G A. unfold completion, exec.
  rewrite (fetchData_refused props now s result G A). simpl.
  repeat split. apply refusal_text_nonempty.
Qed.

(** A refresh whose request rejects with an actual value as reason:
    [error] is truthy (the reason's [message], or the fallback text), the
    snapshot keeps its values, [loading] is reset. *)
Lemma fetchData_rejected_request props now s reason :
  api_get props status_path = Rejected reason ->
  nullish reason = false ->
  completion (fetchData props now) s = Normal tt
  /\ truthy (error (exec (fetchData props now) s)) = true
  /\ status (exec (fetchData props now) s) = status s
  /\ loading (exec (fetchData props now) s) = false.
Proof.
  intros G N. unfold completion, exec.
  rewrite (fetchData_rejected props now s reason G N). simpl.
  repeat split. apply js_or_truthy. reflexivity.
Qed.

(** C3 at its failing input: the request rejects with [undefined] as
    reason.  Line 161 reads [err.message], which throws out of the
    [catch] block; [error], cleared at line 139, is never set, and
    [fetchData] itself rejects.  Only [loading] is reset and the snapshot
    kept. *)
Theorem fetchData_rejection_without_reason (s : State) (now : Z) :
  completion (fetchData (rejecting JUndefined) now) s
  = Throw (TypeError_read JUndefined "message")
  /\ error (exec (fetchData (rejecting JUndefined) now) s) = JNull
  /\ nonempty_string (error (exec (fetchData (rejecting JUndefined) now) s)) = false
  /\ status (exec (fetchData (rejecting JUndefined) now) s) = status s
  /\ loading (exec (fetchData (rejecting JUndefined) now) s) = false.
Proof.
  unfold completion, exec.
  rewrite (fetchData_rejected_nullish (rejecting JUndefined) now s JUndefined
             eq_refl eq_refl).
  simpl. repeat split.
Qed.

(** C4: a refresh answered by [{code: 0, data: ...}] with [data] present
    copies [enabled], [has_client] and [running] from the data into the
    snapshot, sets [initialDataLoaded], stamps [lastRefreshedTimestamp]
    with the current time and leaves [error] cleared ([null]); [loading]
    is back to [false] and nothing is thrown. *)
Theorem fetchData_success_updates_snapshot
  (props : Props) (now : Z) (s : State) (result : JsVal) :
  api_get props status_path = Resolved result ->
  get_field result "code" = JNum 0 ->
  truthy (get_field result "data") = true ->
  status (exec (fetchData props now) s)
  = {| enabled := get_field (get_field result "data") "enabled";
       has_client := get_field (get_field result "data") "has_client";
       running := get_field (get_field result "data") "running" |}
  /\ initialDataLoaded (exec (fetchData props now) s) = true
  /\ lastRefreshedTimestamp (exec (fetchData props now) s) = JNum now
  /\ error (exec (fetchData props now) s) = JNull
  /\ loading (exec (fetchData props now) s) = false
  /\ completion (fetchData props now) s = Normal tt.
Proof.
  intros G C D. pose proof (accepted_of_shape result C D) as A.
  unfold completion, exec.
  rewrite (fetchData_accepted props now s result G A). simpl. repeat split.
Qed.

(** The response of the specification, on a fresh component: the
    snapshot is the triple (true, false, true). *)
Lemma fetchData_success_sample :
  status (exec (fetchData (answering sample_response) 1700) initial)
  = {| enabled := JBool true; has_client := JBool false; running := JBool true |}
  /\ initialDataLoaded (exec (fetchData (answering sample_response) 1700) initial)
     = true
  /\ lastRefreshedTimestamp
       (exec (fetchData (answering sample_response) 1700) initial) = JNum 1700
  /\ error (exec (fetchData (answering sample_response) 1700) initial) = JNull.
Proof.
  destruct (fetchData_success_updates_snapshot
              (answering sample_response) 1700 initial sample_response
              eq_refl eq_refl eq_refl) as (A & B & C & D & _).
  split; [exact A|]. split; [exact B|]. split; [exact C | exact D].
Defined.

(** C10: the three fields are copied as they are, without a check that
    they are booleans.  When the data of an accepted response lacks one
    of them, that field of the snapshot becomes [undefined], and the
    refresh is a success all the same: [initialDataLoaded] is set,
    [lastRefreshedTimestamp] is stamped and [error] stays [null]. *)
Theorem fetchData_copies_fields_unchecked
  (props : Props) (now : Z) (s : State) (result : JsVal)
  (fields : list (string * JsVal)) (k : StatusKey) :
  api_get props status_path = Resolved result ->
  get_field result "code" = JNum 0 ->
  get_field result "data" = JObj fields ->
  lookup (key_name k) fields = None ->
  status_field k (status (exec (fetchData props now) s)) = JUndefined
  /\ is_bool (status_field k (status (exec (fetchData props now) s))) = false
  /\ (forall k' : StatusKey,
        status_field k' (status (exec (fetchData props now) s))
        = get_field (JObj fields) (key_name k'))
  /\ initialDataLoaded (exec (fetchData props now) s) = true
  /\ lastRefreshedTimestamp (exec (fetchData props now) s) = JNum now
  /\ error (exec (fetchData props now) s) = JNull.
Proof.
  intros G C D L.
  assert (T : truthy (get_field result "data") = true) by (rewrite D; reflexivity).
  pose proof (accepted_of_shape result C T) as A.
  unfold exec. rewrite (fetchData_accepted props now s result G A).
  cbn [snd status initialDataLoaded lastRefreshedTimestamp error].
  unfold status_of. rewrite D.
  assert (V : forall k' : StatusKey,
             status_field k'
               {| enabled := get_field (JObj fields) "enabled";
                  has_client := get_field (JObj fields) "has_client";
                  running := get_field (JObj fields) "running" |}
             = get_field (JObj fields) (key_name k'))
    by (intros []; reflexivity).
  assert (U : get_field (JObj fields) (key_name k) = JUndefined)
    by (simpl; rewrite L; reflexivity).
  rewrite (V k), U. repeat split; try assumption.
Qed.

(** A response that carries [enabled] only: [running] and [has_client]
    become [undefined]. *)
Lemma fetchData_partial_data_sample :
  running (status (exec (fetchData (answering partial_response) 1700) initial))
  = JUndefined
  /\ initialDataLoaded (exec (fetchData (answering partial_response) 1700) initial)
     = true
  /\ error (exec (fetchData (answering partial_response) 1700) initial) = JNull.
Proof.
  destruct (fetchData_copies_fields_unchecked
              (answering partial_response) 1700 initial partial_response
              [("enabled", JBool true)] KRunning
              eq_refl eq_refl eq_refl eq_refl) as (A & _ & _ & B & _ & C).
  split; [exact A|]. split; [exact B | exact C].
Defined.

(** One event moves [initialDataLoaded] to [true] when it is an accepted
    response, and never moves it otherwise. *)
Lemma step_initialDataLoaded ev s :
  initialDataLoaded (exec (step ev) s) = initialDataLoaded s || successful ev.
Proof.
  unfold exec. destruct ev as [|now [result|reason]|]; cbn [step successful].
  - rewrite fetchData_begin_spec. simpl. rewrite orb_false_r. reflexivity.
  - destruct (accepted result) eqn:A.
    + rewrite fetchData_resume_accepted by assumption. simpl.
      rewrite orb_true_r. reflexivity.
    + rewrite fetchData_resume_refused by assumption. simpl.
      rewrite orb_false_r. reflexivity.
  - destruct (nullish reason) eqn:N.
    + rewrite fetchData_resume_rejected_nullish by assumption. simpl.
      rewrite orb_false_r. reflexivity.
    + rewrite fetchData_resume_rejected by assumption. simpl.
      rewrite orb_false_r. reflexivity.
  - rewrite onUnmounted_spec. simpl. rewrite orb_false_r. reflexivity.
Qed.

Lemma run_initialDataLoaded evs s :
  initialDataLoaded (run evs s) = initialDataLoaded s || existsb successful evs.
Proof.
  revert s. induction evs as [|ev rest IH]; intros s; simpl.
  - rewrite orb_false_r. reflexivity.
  - rewrite IH, step_initialDataLoaded, orb_assoc. reflexivity.
Qed.

Lemma run_app evs more s : run (evs ++ more) s = run more (run evs s).
Proof.
  revert s. induction evs as [|ev rest IH]; intros s; simpl; [reflexivity|].
  apply IH.
Qed.

(** C7: over every sequence of refreshes, responses and unmounts,
    [initialDataLoaded] is [false] up to the first accepted response and
    [true] from it on: after [evs] it tells whether [evs] holds an
    accepted response, and whatever follows ([more], failing refreshes
    included) can only add to that, never reset it. *)
Theorem initialDataLoaded_latches (evs more : list Event) :
  initialDataLoaded (run evs initial) = existsb successful evs
  /\ initialDataLoaded (run (evs ++ more) initial)
     = initialDataLoaded (run evs initial) || existsb successful more.
Proof.
  split.
  - rewrite run_initialDataLoaded. reflexivity.
  - rewrite run_app, run_initialDataLoaded. reflexivity.
Qed.

(** The response of the specification, then a failing refresh: the flag
    stays up and the snapshot stays. *)
Example loaded_once_survives_failure :
  let s := run [Refresh; Response 1700 (Resolved sample_response);
                Refresh; Response 1800 (Rejected (new_Error (JStr "timeout")))]
             initial in
  initialDataLoaded s = true
  /\ status s = status_of sample_response
  /\ error s = JStr "timeout".
Proof. repeat split. Qed.

End DashboardFacts.

(* ===================================================================== *)
(** * Properties of the application shell *)
(* ===================================================================== *)

Section AppFacts.

Import App.

(** The guards of lines 27 and 33 hold exactly for the envelopes of that
    kind. *)
Lemma has_type_spec event kind :
  has_type event kind
  = match envelope_kind event with
    | Some k => (k =? kind)
    | None => false
    end.
Proof.
  assert (F : forall d, truthy (js_and d (JBool false)) = false).
  { intros d. unfold js_and. destruct (truthy d) eqn:T; [reflexivity | exact T]. }
  unfold has_type, envelope_kind. destruct event as [d].
  destruct d as [| |b|n| |t|items|fields]; cbn [data get_field strict_eq_str];
    try apply F.
  destruct (lookup "type" fields) as [[]|]; reflexivity.
Qed.

Lemma has_type_unrecognized event kind :
  envelope_kind event <> Some kind -> has_type event kind = false.
Proof.
  intros H. rewrite has_type_spec.
  destruct (envelope_kind event) as [k|]; [|reflexivity].
  destruct (k =? kind) eqn:E; [|reflexivity].
  apply String.eqb_eq in E. subst k. contradiction.
Qed.

(** C5, as stated, fails: the child has switched to [Config] and saves
    a configuration that cannot be cloned, with a parent window that can
    be posted to.  [postMessage] throws at line 53, line 56 is not
    reached, and the view is still [Config]. *)
Lemma saveConfig_stays_on_Config_when_clone_fails :
  completion (saveConfig ParentWindow reactive_config)
    (exec switchComponent initial)
  = Throw (DataCloneError "#<Object>")
  /\ currentComponent
       (exec (saveConfig ParentWindow reactive_config)
          (exec switchComponent initial))
     <> Page.
Proof. split; [reflexivity | discriminate]. Qed.

(** C5, amended: [saveConfig] completes normally with [currentComponent]
    set to [Page] whenever the parent window cannot be posted to (the
    relay is skipped) or the configuration can be cloned (the ['save']
    envelope is posted).  When the parent can be posted to and the
    configuration cannot be cloned, [postMessage] throws out of
    [saveConfig]: nothing is posted and the state, the view included, is
    left as it was. *)
Theorem saveConfig_returns_to_Page_unless_clone_fails
  (parent : Parent) (config : ConfigValue) (s : State) :
  saveConfig parent config s
  = match config with
    | PlainConfig value =>
        (Normal tt,
         mkState Page (api s)
           (posted s
            ++ (if can_post parent
                then [JObj [("type", JStr "save"); ("data", value)]]
                else []))
           (console s))
    | Uncloneable printed =>
        if can_post parent
        then (Throw (DataCloneError printed), s)
        else (Normal tt, mkState Page (api s) (posted s) (console s))
    end.
Proof.
  unfold saveConfig, when, bind.
  destruct config as [value|printed]; destruct (can_post parent); simpl;
    try reflexivity.
  rewrite app_nil_r. reflexivity.
Qed.

(** Every handler leaves a defined view defined. *)
Lemma step_defined_view ev s :
  defined_view (currentComponent s) ->
  defined_view (currentComponent (exec (step ev) s)).
Proof.
  intros H. unfold exec. destruct ev as [event| |parent|parent config]; simpl.
  - unfold handleMessage, when, bind.
    destruct (has_type event "api"); simpl;
      [ unfold get_prop; destruct (nullish (data event)); simpl | ];
      destruct (has_type event "showConfig"); simpl;
      solve [ exact H | right; reflexivity ].
  - unfold switchComponent, bind, gets. simpl.
    destruct (view_eq (currentComponent s) Page); [right | left]; reflexivity.
  - unfold closeModal, when. destruct (can_post parent); exact H.
  - unfold saveConfig, when, bind.
    destruct config as [value|printed]; destruct (can_post parent); simpl;
      solve [ left; reflexivity | exact H ].
Qed.

Lemma run_defined_view evs s :
  defined_view (currentComponent s) ->
  defined_view (currentComponent (run evs s)).
Proof.
  revert s. induction evs as [|ev rest IH]; intros s H; simpl; [exact H|].
  apply IH, step_defined_view, H.
Qed.

(** C6: after every sequence of host messages ([showConfig] among them)
    and of events of the child ([switch], and also [close] and [save]),
    applied from the initial state, [currentComponent] is [Page] or
    [Config]; it is never [undefined]. *)
Theorem view_is_always_Page_or_Config (evs : list Event) :
  (currentComponent (run evs initial) = Page
   \/ currentComponent (run evs initial) = Config)
  /\ currentComponent (run evs initial) <> VUndefined.
Proof.
  assert (D : defined_view (currentComponent (run evs initial)))
    by (apply run_defined_view; left; reflexivity).
  split; [exact D|]. destruct D as [-> | ->]; discriminate.
Qed.

(** C8: a message whose envelope is of neither recognised kind ([api],
    [showConfig]), a message without data or without a [type] among
    them, changes nothing in the state of the shell and throws nothing. *)
Theorem unrecognized_message_is_ignored (event : MessageEvent) (s : State) :
  envelope_kind event <> Some "api" ->
  envelope_kind event <> Some "showConfig" ->
  handleMessage event s = (Normal tt, s).
Proof.
  intros A C. unfold handleMessage, when, bind.
  rewrite (has_type_unrecognized event "api" A).
  rewrite (has_type_unrecognized event "showConfig" C). reflexivity.
Qed.

(** An envelope of an unknown kind and a message without data, sent to
    the shell in its initial state. *)
Lemma unrecognized_message_samples :
  handleMessage unknown_envelope initial = (Normal tt, initial)
  /\ handleMessage empty_message initial = (Normal tt, initial).
Proof.
  split.
  - apply (unrecognized_message_is_ignored unknown_envelope initial);
      simpl; discriminate.
  - apply (unrecognized_message_is_ignored empty_message initial);
      simpl; discriminate.
Defined.

(** What one event does to the handle and to the count of its
    assignments. *)
Lemma step_api ev s :
  api (exec (step ev) s)
  = (if is_api_envelope ev then carried_handle ev else api s)
  /\ api_assignments (exec (step ev) s)
     = (api_assignments s + (if is_api_envelope ev then 1 else 0))%nat.
Proof.
  unfold exec. destruct ev as [event| |parent|parent config]; cbn [step].
  - unfold is_api_envelope, carried_handle, handleMessage, when, bind.
    rewrite !has_type_spec.
    destruct (envelope_kind event) as [k|] eqn:K; simpl.
    + destruct (k =? "api") eqn:E; simpl.
      * assert (N : nullish (data event) = false).
        { unfold envelope_kind in K. destruct (data event); try discriminate.
          reflexivity. }
        unfold get_prop. rewrite N. simpl.
        apply String.eqb_eq in E. subst k. simpl.
        unfold api_assignments. simpl. rewrite filter_app, length_app. simpl.
        split; reflexivity.
      * destruct (k =? "showConfig"); simpl; split;
          solve [ reflexivity | unfold api_assignments; simpl; lia ].
    + simpl. split; [reflexivity | lia].
  - unfold switchComponent, bind, gets. simpl.
    split; [reflexivity | unfold api_assignments; simpl; lia].
  - unfold closeModal, when. destruct (can_post parent); simpl;
      split; solve [ reflexivity | unfold api_assignments; simpl; lia ].
  - unfold saveConfig, when, bind.
    destruct config as [value|printed]; destruct (can_post parent); simpl;
      split; solve [ reflexivity | unfold api_assignments; simpl; lia ].
Qed.

Lemma run_api evs s :
  api (run evs s) = last_handle evs (api s)
  /\ api_assignments (run evs s)
     = (api_assignments s + length (filter is_api_envelope evs))%nat.
Proof.
  revert s. induction evs as [|ev rest IH]; intros s; simpl.
  - split; [reflexivity | lia].
  - destruct (IH (exec (step ev) s)) as [A N].
    destruct (step_api ev s) as [A1 N1].
    rewrite A, N, A1, N1. split; [reflexivity|].
    destruct (is_api_envelope ev); simpl; lia.
Qed.

(** C9, as stated, fails: two ['api'] envelopes with different handles.
    The handler assigns [api] on each of them: after the first the handle
    is the first one, after the second it is the second one, and two
    assignments have been made, not at most one. *)
Lemma api_handle_is_reassigned :
  api (run [Message (api_envelope handle_1)] initial) = handle_1
  /\ api (run [Message (api_envelope handle_1);
               Message (api_envelope handle_2)] initial) = handle_2
  /\ handle_2 <> handle_1
  /\ ~ (api_assignments
          (run [Message (api_envelope handle_1);
                Message (api_envelope handle_2)] initial) <= 1)%nat.
Proof.
  split; [reflexivity|]. split; [reflexivity|]. split; [discriminate|].
  vm_compute. intros H. inversion H as [|? H1]. inversion H1.
Qed.

(** C9, amended: only the message handler assigns the handle, and it
    does so once for each ['api'] envelope it receives, the last one
    winning: after any sequence of events the handle is the one carried
    by the last ['api'] envelope ([null] if there was none) and the
    number of assignments is the number of ['api'] envelopes.
    [switchComponent], [closeModal] and [saveConfig] leave it alone. *)
Theorem api_handle_follows_api_envelopes
  (evs : list Event) (s : State) (parent : Parent) (config : ConfigValue) :
  api (run evs initial) = last_handle evs JNull
  /\ api_assignments (run evs initial) = length (filter is_api_envelope evs)
  /\ api (exec switchComponent s) = api s
  /\ api (exec (closeModal parent) s) = api s
  /\ api (exec (saveConfig parent config) s) = api s.
Proof.
  destruct (run_api evs initial) as [A N].
  split; [exact A|]. split; [exact N|].
  split; [exact (proj1 (step_api Switch s))|].
  split; [exact (proj1 (step_api (Close parent) s))|].
  exact (proj1 (step_api (Save parent config) s)).
Qed.

End AppFacts.

(* ===================================================================== *)
(** * Properties of the text search and of the chunking rule *)
(* ===================================================================== *)

Section TextFacts.

Import Text.

Lemma prefix_iff needle s :
  String.prefix needle s = true <-> exists rest, s = needle ++ rest.
Proof.
  revert s. induction needle as [|c needle IH]; intros s.
  - destruct s; simpl; split; eauto.
  - destruct s as [|d s]; simpl.
    + split; [discriminate | intros [rest H]; discriminate].
    + destruct (Ascii.ascii_dec c d) as [->|N].
      * rewrite IH. split; intros [rest H]; exists rest.
        -- simpl. congruence.
        -- simpl in H. congruence.
      * split; [discriminate|]. intros [rest H]. simpl in H. congruence.
Qed.

Lemma append_assoc (a b c : string) : (a ++ b) ++ c = a ++ (b ++ c).
Proof. induction a as [|x a IH]; simpl; [reflexivity | rewrite IH; reflexivity]. Qed.

(** [includes] finds exactly the substrings. *)
Lemma includes_iff needle s :
  includes needle s = true <-> exists before after, s = before ++ needle ++ after.
Proof.
  induction s as [|c s IH].
  - change (includes needle "") with (String.prefix needle "" || false).
    rewrite orb_false_r, prefix_iff. split.
    + intros [rest H]. exists "", rest. exact H.
    + intros (before & after & H). destruct before; [|discriminate].
      exists after. exact H.
  - change (includes needle (String c s))
      with (String.prefix needle (String c s) || includes needle s).
    rewrite orb_true_iff, prefix_iff, IH. split.
    + intros [[rest H] | (before & after & H)].
      * exists "", rest. exact H.
      * exists (String c before), after. simpl. rewrite H. reflexivity.
    + intros (before & after & H). destruct before as [|d before].
      * left. exists after. exact H.
      * right. simpl in H. injection H as _ H. exists before, after. exact H.
Qed.

(** A string that holds a text holds every piece of it. *)
Lemma includes_piece left needle right s :
  includes (left ++ needle ++ right) s = true -> includes needle s = true.
Proof.
  rewrite !includes_iff. intros (before & after & H).
  exists (before ++ left), (right ++ after).
  rewrite H, !append_assoc. reflexivity.
Qed.

Lemma includes_false_piece left needle right s :
  includes needle s = false -> includes (left ++ needle ++ right) s = false.
Proof.
  intros H. destruct (includes (left ++ needle ++ right) s) eqn:E; [|reflexivity].
  apply includes_piece in E. congruence.
Qed.

End TextFacts.

Section BuildFacts.

Import Text.
Import Build.

(** The rule leaves to the bundler every module outside [node_modules]
    and names one of its six chunks for every module inside. *)
Theorem manualChunks_range (id : string) :
  match manualChunks id with
  | None => includes "node_modules" id = false
  | Some name => includes "node_modules" id = true /\ In name chunk_names
  end.
Proof.
  unfold manualChunks, chunk_names.
  destruct (includes "node_modules" id); [|reflexivity].
  destruct (includes "@sentry" id); [simpl; tauto|].
  destruct (includes "echarts" id || includes "vue-echarts" id); [simpl; tauto|].
  destruct (includes "vuetify" id); [simpl; tauto|].
  destruct (includes "vue" id); [simpl; tauto|].
  destruct (includes "cron" id || includes "cronstrue" id); simpl; tauto.
Qed.

Lemma echarts_test id :
  includes "echarts" id || includes "vue-echarts" id = includes "echarts" id.
Proof.
  destruct (includes "echarts" id) eqn:H; [reflexivity|].
  simpl. apply (includes_false_piece "vue-" "echarts" "" id H).
Qed.

Lemma cron_test id :
  includes "cron" id || includes "cronstrue" id = includes "cron" id.
Proof.
  destruct (includes "cron" id) eqn:H; [reflexivity|].
  simpl. apply (includes_false_piece "" "cron" "strue" id H).
Qed.

(** The second tests of lines 51 and 63 never decide: a module whose
    name holds [vue-echarts] holds [echarts], one that holds [cronstrue]
    holds [cron]. *)
Theorem manualChunks_redundant_tests (id : string) :
  manualChunks id = manualChunks_plain id.
Proof.
  unfold manualChunks, manualChunks_plain.
  rewrite echarts_test, cron_test. reflexivity.
Qed.

(** What lands in [vue-vendor]: the modules of [node_modules] whose name
    holds [vue] and none of [@sentry], [echarts], [vuetify].  So
    [@sentry/vue], [vue-echarts] and [vuetify] itself, which all hold
    [vue], go to the chunks tested before. *)
Theorem manualChunks_vue_vendor (id : string) :
  manualChunks id = Some "vue-vendor"
  <-> includes "node_modules" id = true
      /\ includes "@sentry" id = false
      /\ includes "echarts" id = false
      /\ includes "vuetify" id = false
      /\ includes "vue" id = true.
Proof.
  unfold manualChunks. rewrite echarts_test, cron_test.
  destruct (includes "node_modules" id);
    [|split; [discriminate | intros (H & _); discriminate]].
  destruct (includes "@sentry" id);
    [split; [discriminate | intros (_ & H & _); discriminate]|].
  destruct (includes "echarts" id);
    [split; [discriminate | intros (_ & _ & H & _); discriminate]|].
  destruct (includes "vuetify" id);
    [split; [discriminate | intros (_ & _ & _ & H & _); discriminate]|].
  destruct (includes "vue" id).
  - split; [intros _; repeat split | reflexivity].
  - split; [|intros (_ & _ & _ & _ & H); discriminate].
    destruct (includes "cron" id); discriminate.
Qed.

End BuildFacts.

(* ===================================================================== *)
(** * Properties of the event filter *)
(* ===================================================================== *)

Section FilterFacts.

Import Text.
Import Filter.

#[local] Arguments includes : simpl never.

Lemma field_owner_not_nullish o k v :
  get_field o k = v -> v <> JUndefined -> nullish o = false.
Proof. destruct o; simpl; intros H N; congruence. Qed.

Lemma includes_nonempty needle u :
  needle <> "" -> includes needle u = true -> truthy (JStr u) = true.
Proof.
  intros N H. destruct u; [|reflexivity].
  destruct needle; [congruence | discriminate].
Qed.

(** If every continuation can only drop or keep, so can the whole. *)
Lemma verdict_bind {A} event (m : F A) (k : A -> F JsVal) :
  (forall a, verdict_on event (completion (k a) tt)) ->
  verdict_on event (completion (bind m k) tt).
Proof.
  intros H. unfold completion, bind.
  destruct (m tt) as [[a|e] []]; [apply H | exact I].
Qed.

(** The filter never rewrites an event: when it returns, it returns
    [null] or the very event it was given. *)
Theorem beforeSend_drops_or_keeps (event hint : JsVal) :
  verdict_on event (completion (beforeSend event hint) tt).
Proof.
  unfold beforeSend.
  apply verdict_bind; intros url.
  apply verdict_bind; intros plugin.
  apply verdict_bind; intros foreign.
  destruct foreign; [left; reflexivity|].
  destruct (truthy (js_and hint (get_field hint "originalException")));
    [|right; reflexivity].
  apply verdict_bind; intros error.
  apply verdict_bind; intros noisy.
  destruct noisy; [left; reflexivity|].
  apply verdict_bind; intros warning.
  destruct warning; [left | right]; reflexivity.
Qed.

(** The address of an event that carries one. *)
Lemma event_url_of_request event hint u :
  get_field (get_field event "request") "url" = JStr u ->
  truthy (JStr u) = true ->
  event_url event hint tt = (Normal (JStr u), tt).
Proof.
  intros U T.
  assert (NR : nullish (get_field event "request") = false)
    by (apply (field_owner_not_nullish _ _ _ U); discriminate).
  assert (NE : nullish event = false).
  { apply (field_owner_not_nullish event "request" _ eq_refl).
    intros E. rewrite E in NR. discriminate. }
  unfold event_url, bind, get_prop. rewrite NE. unfold ret at 1.
  unfold opt_field. rewrite NR, U, T. reflexivity.
Qed.

(** Lines 60-68 on a non-empty address: the event is dropped there
    exactly when the address is a foreign one. *)
Lemma url_stage u :
  truthy (JStr u) = true ->
  bind (isPluginError (JStr u)) (foreign_plugin (JStr u)) tt
  = (Normal (foreign_url u), tt).
Proof.
  intros T.
  unfold isPluginError, foreign_plugin, foreign_url, or_else, and_then, not_,
    bind, ret, call_includes.
  destruct (includes "115strmhelper" u) eqn:I.
  - destruct (includes "p115strmhelper" u); simpl; rewrite andb_false_r;
      reflexivity.
  - assert (P : includes "p115strmhelper" u = false)
      by exact (includes_false_piece "p" "115strmhelper" "" u I).
    rewrite P. unfold ret. cbv beta iota. cbn [negb]. rewrite T.
    destruct (includes "/plugins/" u); reflexivity.
Qed.

(** An event with an address passes lines 59-68 exactly when the
    address is not a foreign one. *)
Lemma beforeSend_after_url event hint u :
  get_field (get_field event "request") "url" = JStr u ->
  truthy (JStr u) = true ->
  beforeSend event hint tt
  = if foreign_url u then (Normal JNull, tt) else exception_stage event hint tt.
Proof.
  intros U T. pose proof (url_stage u T) as S.
  unfold beforeSend, exception_stage, bind in *.
  rewrite (event_url_of_request event hint u U T).
  destruct (isPluginError (JStr u) tt) as [[plugin|e] []]; [|discriminate].
  rewrite S. destruct (foreign_url u); reflexivity.
Qed.

(** Events of other plugins are dropped, whatever else they carry. *)
Theorem beforeSend_drops_foreign_plugin (event hint : JsVal) (u : string) :
  get_field (get_field event "request") "url" = JStr u ->
  foreign_url u = true ->
  beforeSend event hint tt = (Normal JNull, tt).
Proof.
  intros U Fu.
  assert (T : truthy (JStr u) = true).
  { unfold foreign_url in Fu. apply andb_true_iff in Fu as [P _].
    apply (includes_nonempty "/plugins/" u); [discriminate | exact P]. }
  rewrite (beforeSend_after_url event hint u U T), Fu. reflexivity.
Qed.

Lemma foreign_event_is_dropped :
  beforeSend foreign_event (hint_of ordinary_error) tt = (Normal JNull, tt).
Proof.
  apply (beforeSend_drops_foreign_plugin foreign_event (hint_of ordinary_error)
           "https://host/plugins/other/page"); reflexivity.
Defined.

(** Lines 73-83 on an exception whose message is a string. *)
Lemma noisy_message_of_string error m :
  get_field error "message" = JStr m ->
  noisy_message error tt = (Normal (is_noise m), tt).
Proof.
  intros M.
  assert (N : nullish error = false)
    by (apply (field_owner_not_nullish _ _ _ M); discriminate).
  unfold noisy_message, bind, get_prop, and_then, or_else, ret, call_includes.
  rewrite N, M. unfold bind, ret. cbn [truthy].
  destruct m as [|c m]; [reflexivity|].
  cbn [String.eqb negb]. unfold is_noise, noise. cbn [existsb].
  repeat match goal with
         | |- context [includes ?f (String c m)] =>
             destruct (includes f (String c m)); cbn [orb]; try reflexivity
         end.
Qed.

Lemma vue_warning_of_string error m :
  get_field error "message" = JStr m ->
  vue_warning error tt
  = (Normal (strict_eq_str (get_field error "name") "Vue warn"
             || includes "[Vue warn]" m), tt).
Proof.
  intros M.
  assert (N : nullish error = false)
    by (apply (field_owner_not_nullish _ _ _ M); discriminate).
  unfold vue_warning, bind, get_prop, or_else, ret, call_includes.
  rewrite N. unfold ret, bind.
  destruct (strict_eq_str (get_field error "name") "Vue warn"); [reflexivity|].
  rewrite M. reflexivity.
Qed.

(** Lines 70-92 on an exception whose message is a string: dropped when
    the message is noise or a Vue warning, kept otherwise. *)
Lemma exception_stage_of_string event hint m :
  get_field (get_field hint "originalException") "message" = JStr m ->
  exception_stage event hint tt
  = (Normal (if is_noise m
                || strict_eq_str
                     (get_field (get_field hint "originalException") "name")
                     "Vue warn"
                || includes "[Vue warn]" m
             then JNull else event), tt).
Proof.
  intros M. set (error := get_field hint "originalException") in *.
  assert (NE : nullish error = false)
    by (apply (field_owner_not_nullish _ _ _ M); discriminate).
  assert (TE : truthy error = true)
    by (destruct error; simpl in M; try discriminate; reflexivity).
  assert (NH : nullish hint = false).
  { apply (field_owner_not_nullish hint "originalException" error eq_refl).
    intros X. rewrite X in NE. discriminate. }
  assert (TH : truthy hint = true).
  { destruct hint; try reflexivity; subst error; simpl in TE; discriminate. }
  unfold exception_stage, bind, js_and. fold error. rewrite TH, TE.
  unfold get_prop. rewrite NH. fold error. unfold ret at 1.
  rewrite (noisy_message_of_string error m M).
  destruct (is_noise m); [reflexivity|].
  rewrite (vue_warning_of_string error m M).
  cbn [orb].
  destruct (strict_eq_str (get_field error "name") "Vue warn" || includes "[Vue warn]" m);
    reflexivity.
Qed.

(** Noise is dropped: an exception whose message holds one of the six
    fragments of lines 76-81 never leaves, whatever the plugin. *)
Theorem beforeSend_drops_noise (event hint : JsVal) (u m : string) :
  get_field (get_field event "request") "url" = JStr u ->
  truthy (JStr u) = true ->
  get_field (get_field hint "originalException") "message" = JStr m ->
  is_noise m = true ->
  beforeSend event hint tt = (Normal JNull, tt).
Proof.
  intros U T M Nm. rewrite (beforeSend_after_url event hint u U T).
  destruct (foreign_url u); [reflexivity|].
  rewrite (exception_stage_of_string event hint m M), Nm. reflexivity.
Qed.

Lemma noisy_error_is_dropped :
  beforeSend own_event (hint_of noisy_error) tt = (Normal JNull, tt).
Proof.
  apply (beforeSend_drops_noise own_event (hint_of noisy_error)
           "https://host/plugins/p115strmhelper/page"
           "Failed to fetch dynamically imported module"); reflexivity.
Defined.

(** An error of this plugin (or from outside [/plugins/]) whose message
    is neither noise nor a Vue warning is passed on unchanged. *)
Theorem beforeSend_keeps_plugin_error (event hint : JsVal) (u m : string) :
  get_field (get_field event "request") "url" = JStr u ->
  truthy (JStr u) = true ->
  foreign_url u = false ->
  get_field (get_field hint "originalException") "message" = JStr m ->
  is_noise m = false ->
  includes "[Vue warn]" m = false ->
  strict_eq_str (get_field (get_field hint "originalException") "name")
    "Vue warn" = false ->
  beforeSend event hint tt = (Normal event, tt).
Proof.
  intros U T Fu M Nm W V.
  rewrite (beforeSend_after_url event hint u U T), Fu.
  rewrite (exception_stage_of_string event hint m M), Nm, V, W.
  reflexivity.
Qed.

Lemma ordinary_error_is_kept :
  beforeSend own_event (hint_of ordinary_error) tt = (Normal own_event, tt).
Proof.
  apply (beforeSend_keeps_plugin_error own_event (hint_of ordinary_error)
           "https://host/plugins/p115strmhelper/page" "share code expired");
    reflexivity.
Defined.

(** An exception without a [message] (a rejected string, a plain object)
    that is not named [Vue warn] makes the filter itself throw: line 87
    calls [includes] on the missing message. *)
Theorem beforeSend_throws_without_message (event hint : JsVal) (u : string) :
  get_field (get_field event "request") "url" = JStr u ->
  truthy (JStr u) = true ->
  foreign_url u = false ->
  truthy (get_field hint "originalException") = true ->
  get_field (get_field hint "originalException") "message" = JUndefined ->
  strict_eq_str (get_field (get_field hint "originalException") "name")
    "Vue warn" = false ->
  beforeSend event hint tt = (Throw (TypeError_read JUndefined "includes"), tt).
Proof.
  intros U T Fu TE M V.
  set (error := get_field hint "originalException") in *.
  assert (NE : nullish error = false) by (apply truthy_not_nullish, TE).
  assert (NH : nullish hint = false).
  { apply (field_owner_not_nullish hint "originalException" error eq_refl).
    intros X. rewrite X in TE. discriminate. }
  assert (TH : truthy hint = true).
  { destruct hint; try reflexivity; subst error; simpl in TE; discriminate. }
  rewrite (beforeSend_after_url event hint u U T), Fu.
  unfold exception_stage, bind, js_and. fold error. rewrite TH, TE.
  unfold get_prop. rewrite NH. fold error. unfold ret at 1.
  unfold noisy_message, vue_warning, bind, get_prop, and_then, or_else, ret,
    call_includes.
  rewrite NE, M. cbn [truthy]. unfold bind. rewrite V. reflexivity.
Qed.

Lemma rejected_string_makes_filter_throw :
  beforeSend own_event (hint_of (JStr "timeout")) tt
  = (Throw (TypeError_read JUndefined "includes"), tt).
Proof.
  apply (beforeSend_throws_without_message own_event (hint_of (JStr "timeout"))
           "https://host/plugins/p115strmhelper/page"); reflexivity.
Defined.

End FilterFacts.

(* ===================================================================== *)
(** * More on the diagnostics singleton: the app it attaches to *)
(* ===================================================================== *)

Section SentryAppFacts.

Import Sentry.
Import SentryApp.

#[local] Arguments initSentry : simpl never.

Lemma snoc2 {A} (l : list A) (a b : A) : ((l ++ [a]) ++ [b] = l ++ [a; b])%list.
Proof. rewrite <- app_assoc. reflexivity. Qed.

Lemma snoc3 {A} (l : list A) (a b c : A) :
  (((l ++ [a]) ++ [b]) ++ [c] = l ++ [a; b; c])%list.
Proof. rewrite <- !app_assoc. reflexivity. Qed.

Ltac unfold_trace :=
  unfold console_error, emit, modify; simpl; rewrite ?snoc3, ?snoc2.

(** [initSentry], called as [init-sentry.js] calls it, returns normally
    and only appends to the trace. *)
Lemma initSentry_appends env app s :
  exists events,
    initSentry env app JNull enabled_options s
    = (Normal tt,
       mkModuleState (sentryInitialized s) (tempApp s) (trace s ++ events)).
Proof.
  unfold initSentry, enabled_options; simpl.
  unfold try_catch, bind, lift, ret, get_prop; simpl.
  destruct (node_env env) as [node|e]; simpl; [|eexists; reflexivity].
  destruct (replayIntegration (sdk env) _) as [replay|e]; simpl;
    [|eexists; reflexivity].
  destruct (init (sdk env) _) as [[]|e]; simpl;
    [|eexists; unfold_trace; reflexivity].
  destruct (setUser (sdk env) _) as [[]|e]; simpl.
  - eexists. unfold_trace. reflexivity.
  - eexists. unfold_trace. reflexivity.
Qed.

(** What the client is initialised with.  When [initSentry] reaches
    [Sentry.init], the options carry the fixed DSN, switch tracing and
    session replays off and replays on error on, and name the app exactly
    when one was passed in. *)
Theorem initSentry_client_options (env : Env) (app : JsVal) (s : ModuleState) :
  exists events,
    exec (initSentry env app JNull enabled_options) s
    = mkModuleState (sentryInitialized s) (tempApp s) (trace s ++ events)
    /\ forall opts, In (SentryInit opts) events ->
         get_field opts "dsn" = JStr FRONTEND_DSN
         /\ get_field opts "app" = (if truthy app then app else JUndefined)
         /\ get_field opts "tracesSampleRate" = JNum 0
         /\ get_field opts "replaysSessionSampleRate" = JNum 0
         /\ get_field opts "replaysOnErrorSampleRate" = JNum 1.
Proof.
  assert (O : forall environment replay,
             let opts := initOptions environment (default_param app JNull)
                           JNull replay in
             get_field opts "dsn" = JStr FRONTEND_DSN
             /\ get_field opts "app" = (if truthy app then app else JUndefined)
             /\ get_field opts "tracesSampleRate" = JNum 0
             /\ get_field opts "replaysSessionSampleRate" = JNum 0
             /\ get_field opts "replaysOnErrorSampleRate" = JNum 1).
  { intros environment replay. unfold initOptions.
    destruct app; simpl; try destruct b; simpl; repeat split;
      match goal with
      | |- context [if ?c then _ else _] => destruct c; reflexivity
      | _ => reflexivity
      end. }
  unfold exec, initSentry, enabled_options; simpl.
  unfold try_catch, bind, lift, ret, get_prop; simpl.
  destruct (node_env env) as [node|e]; simpl.
  2:{ eexists; split; [reflexivity|]. intros opts [H|[]]; discriminate. }
  destruct (replayIntegration (sdk env) _) as [replay|e]; simpl.
  2:{ eexists; split; [reflexivity|]. intros opts [H|[]]; discriminate. }
  destruct (init (sdk env) _) as [[]|e]; simpl.
  2:{ eexists; split; [unfold_trace; reflexivity|].
      intros opts [H|[H|[]]]; [|discriminate].
      injection H as <-. apply O. }
  destruct (setUser (sdk env) _) as [[]|e]; simpl.
  - eexists; split; [unfold_trace; reflexivity|].
    intros opts [H|[H|[]]]; [|discriminate]. injection H as <-. apply O.
  - eexists; split; [unfold_trace; reflexivity|].
    intros opts [H|[H|[H|[]]]]; [|discriminate|discriminate].
    injection H as <-. apply O.
Qed.

(** With [enabled: false] in its options [initSentry] does nothing: no
    call of the client, no console line. *)
Theorem initSentry_disabled (env : Env) (app router options : JsVal) (s : ModuleState) :
  get_field options "enabled" = JBool false ->
  initSentry env app router options s = (Normal tt, s).
Proof.
  intros H. destruct options; try (simpl in H; discriminate).
  unfold initSentry, bind, get_prop.
  change (default_param (JObj fields) (JObj [])) with (JObj fields).
  change (nullish (JObj fields)) with false. cbv iota beta.
  rewrite H. reflexivity.
Qed.

Lemma initSentry_disabled_sample :
  initSentry bare_env host_app JNull (JObj [("enabled", JBool false)]) initial
  = (Normal tt, initial).
Proof.
  apply (initSentry_disabled bare_env host_app JNull
           (JObj [("enabled", JBool false)]) initial). reflexivity.
Defined.

(** An app that is found is the app that is used: [createApp] is not
    consulted, [tempApp] keeps its value, and [initSentry] is called with
    the app of the current instance or, failing that, of the global
    slot. *)
Theorem found_app_is_used (env : Env) (s : ModuleState) :
  sentryInitialized s = false ->
  truthy (found_app env) = true ->
  exists events,
    exec (ensureSentryInitialized env) s
    = mkModuleState true (tempApp s)
        (trace s
         ++ CallInitSentry (found_app env) JNull enabled_options :: events).
Proof.
  intros U T.
  assert (R : reads_null_window env = false).
  { unfold reads_null_window, found_app in *.
    destruct (truthy (instance_app env)) eqn:A; [reflexivity|].
    destruct (window env) as [[]|]; try reflexivity.
    cbn [negb] in T. unfold slot_or in T. cbn [get_field truthy] in T.
    congruence. }
  unfold exec, ensureSentryInitialized, ensureSentryInitialized_with, bind, gets.
  simpl. rewrite U. unfold try_catch, bind.
  rewrite locate_instance_app_spec, locate_window_app_spec, R.
  unfold make_temp_app. rewrite T. cbn [negb]. unfold ret at 1. cbv beta iota.
  match goal with |- context [initSentry env ?a JNull ?o ?st] =>
    destruct (initSentry_appends env a st) as (events & E) end.
  unfold enabled_options in E. rewrite E. simpl.
  exists events. rewrite <- app_assoc. reflexivity.
Qed.

Lemma instance_app_is_used :
  exists events,
    exec (ensureSentryInitialized env_with_instance) initial
    = mkModuleState true JNull
        (CallInitSentry host_app JNull enabled_options :: events).
Proof.
  destruct (found_app_is_used env_with_instance initial eq_refl eq_refl)
    as (events & E).
  exists events. exact E.
Defined.

(** When no app is found, and the lookup did not stumble over a [null]
    window, the singleton makes a throwaway app, keeps it in [tempApp]
    and calls [initSentry] with it. *)
Theorem temp_app_is_made (env : Env) (s : ModuleState) (created : JsVal) :
  sentryInitialized s = false ->
  reads_null_window env = false ->
  truthy (found_app env) = false ->
  createApp env = Normal created ->
  exists events,
    exec (ensureSentryInitialized env) s
    = mkModuleState true created
        (trace s ++ CallInitSentry created JNull enabled_options :: events).
Proof.
  intros U R T C.
  unfold exec, ensureSentryInitialized, ensureSentryInitialized_with, bind, gets.
  simpl. rewrite U. unfold try_catch, bind.
  rewrite locate_instance_app_spec, locate_window_app_spec, R.
  unfold make_temp_app. rewrite T. cbn [negb].
  unfold try_catch, bind, lift. rewrite C.
  unfold set_tempApp, console_error, emit, modify, gets, ret. cbv beta iota.
  cbn [sentryInitialized tempApp trace].
  match goal with |- context [initSentry env ?a JNull ?o ?st] =>
    destruct (initSentry_appends env a st) as (events & E) end.
  unfold enabled_options in E. rewrite E. simpl.
  exists events. rewrite <- app_assoc. reflexivity.
Qed.

Lemma temp_app_is_made_sample :
  exists events,
    exec (ensureSentryInitialized bare_env) initial
    = mkModuleState true (JObj [])
        (CallInitSentry (JObj []) JNull enabled_options :: events).
Proof.
  destruct (temp_app_is_made bare_env initial (JObj [])
              eq_refl eq_refl eq_refl eq_refl)
    as (events & E).
  exists events. exact E.
Defined.

(** When no app is found, the lookup did not stumble over a [null]
    window and [createApp] throws, the failure is logged and [initSentry]
    is called all the same, without an app; the flag is set as after any
    call that reaches [initSentry]. *)
Theorem initSentry_is_called_without_app
  (env : Env) (s : ModuleState) (e : JsVal) :
  sentryInitialized s = false ->
  reads_null_window env = false ->
  truthy (found_app env) = false ->
  createApp env = Throw e ->
  exists events,
    exec (ensureSentryInitialized env) s
    = mkModuleState true (tempApp s)
        (trace s
         ++ ConsoleError "[Sentry] Failed to create temporary Vue app:" e
            :: CallInitSentry (found_app env) JNull enabled_options
            :: events).
Proof.
  intros U R T C.
  unfold exec, ensureSentryInitialized, ensureSentryInitialized_with, bind, gets.
  simpl. rewrite U. unfold try_catch, bind.
  rewrite locate_instance_app_spec, locate_window_app_spec, R.
  unfold make_temp_app. rewrite T. cbn [negb].
  unfold try_catch, bind, lift. rewrite C.
  unfold set_tempApp, console_error, emit, modify, gets, ret. cbv beta iota.
  cbn [sentryInitialized tempApp trace].
  match goal with |- context [initSentry env ?a JNull ?o ?st] =>
    destruct (initSentry_appends env a st) as (events & E) end.
  unfold enabled_options in E. rewrite E. simpl.
  exists events. rewrite <- !app_assoc. reflexivity.
Qed.

Lemma initSentry_is_called_without_app_sample :
  exists events,
    exec (ensureSentryInitialized env_without_app_factory) initial
    = mkModuleState true JNull
        (ConsoleError "[Sentry] Failed to create temporary Vue app:"
           (mk_error "Error" "createApp failed")
         :: CallInitSentry JNull JNull enabled_options :: events).
Proof.
  destruct (initSentry_is_called_without_app env_without_app_factory initial
              (mk_error "Error" "createApp failed")
              eq_refl eq_refl eq_refl eq_refl)
    as (events & E).
  exists events. exact E.
Defined.

(** A [window] that is [null] passes the test of line 27, and line 28
    then reads a property of [null].  With no app on the current instance
    the call ends in the outer [catch]: the error is logged, [createApp]
    and [initSentry] are not called, the flag stays unset, and the next
    call starts over. *)
Theorem null_window_aborts_initialisation (env : Env) (s : ModuleState) :
  sentryInitialized s = false ->
  reads_null_window env = true ->
  ensureSentryInitialized env s
  = (Normal tt,
     mkModuleState false (tempApp s)
       (trace s
        ++ [ConsoleError "[Sentry] Failed to initialize:"
              (TypeError_read JNull "__VUE_APP__")])).
Proof.
  intros U R.
  unfold ensureSentryInitialized, ensureSentryInitialized_with, bind, gets.
  simpl. rewrite U. unfold try_catch, bind.
  rewrite locate_instance_app_spec, locate_window_app_spec, R.
  unfold console_error, emit, modify. rewrite U. reflexivity.
Qed.

Lemma null_window_sample :
  ensureSentryInitialized env_with_null_window initial
  = (Normal tt,
     mkModuleState false JNull
       [ConsoleError "[Sentry] Failed to initialize:"
          (TypeError_read JNull "__VUE_APP__")]).
Proof.
  apply (null_window_aborts_initialisation env_with_null_window initial);
    reflexivity.
Defined.

End SentryAppFacts.

(* ===================================================================== *)
(** * Properties of what the status poller renders *)
(* ===================================================================== *)

Section DashboardViewFacts.

Import Text.
Import Dashboard.
Import DashboardView.

(** After a refresh that is accepted the widget shows the data of the
    response, whatever it showed before: an earlier error is gone. *)
Theorem display_after_success
  (props : Props) (now : Z) (s : State) (result : JsVal) :
  api_get props status_path = Resolved result ->
  accepted result = true ->
  display (exec (fetchData props now) s) = data_shown (status_of result).
Proof.
  intros G A. unfold exec.
  rewrite (fetchData_accepted props now s result G A). reflexivity.
Qed.

Lemma display_after_success_sample :
  display (exec (fetchData (answering sample_response) 1700) initial)
  = DataShown true false true.
Proof.
  apply (display_after_success (answering sample_response) 1700 initial
           sample_response); reflexivity.
Defined.

Lemma failure_text_truthy response : truthy (failure_text response) = true.
Proof.
  destruct response as [result|reason]; simpl.
  - pose proof (refusal_text_nonempty result) as H.
    destruct (refusal_text result); simpl in *; congruence.
  - apply js_or_truthy. reflexivity.
Qed.

Lemma fetchData_reported props now s :
  reported (api_get props status_path) = true ->
  exists lines,
    fetchData props now s
    = (Normal tt,
       mkState false (failure_text (api_get props status_path))
         (initialDataLoaded s) (lastRefreshedTimestamp s) (status s)
         (refreshTimer s) lines).
Proof.
  intros R.
  destruct (api_get props status_path) as [result|reason] eqn:G; simpl in R.
  - apply negb_true_iff in R. eexists.
    rewrite (fetchData_refused props now s result G R). reflexivity.
  - apply negb_true_iff in R. eexists.
    rewrite (fetchData_rejected props now s reason G R). reflexivity.
Qed.

(** After a refresh that fails in a way line 161 can report, the widget
    shows the error text and nothing else, even when data had been
    loaded before: the old snapshot is kept but hidden.  The text is the
    one stored in [error]; the fallback of the template is never
    needed. *)
Theorem display_after_failure (props : Props) (now : Z) (s : State) :
  reported (api_get props status_path) = true ->
  display (exec (fetchData props now) s)
  = ErrorShown (failure_text (api_get props status_path))
  /\ error (exec (fetchData props now) s)
     = failure_text (api_get props status_path)
  /\ status (exec (fetchData props now) s) = status s.
Proof.
  intros R. destruct (fetchData_reported props now s R) as [lines E].
  unfold exec. rewrite E.
  cbn [snd]. unfold display. cbn [loading error status initialDataLoaded].
  cbn [andb]. rewrite failure_text_truthy. unfold js_or.
  rewrite failure_text_truthy. repeat split.
Qed.

Lemma display_after_failure_sample :
  let loaded := exec (fetchData (answering sample_response) 1700) initial in
  let props := rejecting (new_Error (JStr "timeout")) in
  display (exec (fetchData props 1800) loaded) = ErrorShown (JStr "timeout")
  /\ error (exec (fetchData props 1800) loaded) = JStr "timeout"
  /\ status (exec (fetchData props 1800) loaded) = status_of sample_response.
Proof.
  apply (display_after_failure (rejecting (new_Error (JStr "timeout"))) 1800
           (exec (fetchData (answering sample_response) 1700) initial)).
  reflexivity.
Defined.

(** While a refresh is in flight the widget shows the spinner only if no
    data was ever loaded; otherwise it keeps showing the last snapshot,
    and an error shown before has disappeared. *)
Theorem display_while_refreshing (s : State) :
  display (exec fetchData_begin s)
  = if initialDataLoaded s then data_shown (status s) else InitialLoading.
Proof.
  unfold exec. rewrite fetchData_begin_spec. unfold display. simpl.
  destruct (initialDataLoaded s); reflexivity.
Qed.

(** A request rejected with [null] or [undefined] is not shown as an
    error: the widget shows the old data or, if there is none, the empty
    state. *)
Theorem display_after_rejection_without_reason
  (props : Props) (now : Z) (s : State) (reason : JsVal) :
  api_get props status_path = Rejected reason ->
  nullish reason = true ->
  display (exec (fetchData props now) s)
  = if initialDataLoaded s then data_shown (status s) else NoData.
Proof.
  intros G N. unfold exec.
  rewrite (fetchData_rejected_nullish props now s reason G N).
  unfold display. simpl. destruct (initialDataLoaded s); reflexivity.
Qed.

Lemma display_after_rejection_without_reason_sample :
  display (exec (fetchData (rejecting JNull) 1700) initial) = NoData.
Proof.
  apply (display_after_rejection_without_reason (rejecting JNull) 1700 initial
           JNull); reflexivity.
Defined.

(** Once a response has been accepted, the widget never goes back to the
    spinner or to the empty state, whatever follows. *)
Theorem display_never_unloads (evs more : list Event) :
  existsb successful evs = true ->
  display (run (evs ++ more) initial) <> InitialLoading
  /\ display (run (evs ++ more) initial) <> NoData.
Proof.
  intros H.
  assert (L : initialDataLoaded (run (evs ++ more) initial) = true).
  { rewrite run_initialDataLoaded, existsb_app, H. reflexivity. }
  unfold display. rewrite L, andb_false_r.
  destruct (truthy (error (run (evs ++ more) initial))); split; discriminate.
Qed.

Lemma display_never_unloads_sample :
  display (run ([Refresh; Response 1700 (Resolved sample_response)]
                ++ [Refresh; Response 1800 (Rejected JUndefined); Unmounted])
             initial) <> InitialLoading
  /\ display (run ([Refresh; Response 1700 (Resolved sample_response)]
                   ++ [Refresh; Response 1800 (Rejected JUndefined); Unmounted])
                initial) <> NoData.
Proof.
  apply (display_never_unloads
           [Refresh; Response 1700 (Resolved sample_response)]
           [Refresh; Response 1800 (Rejected JUndefined); Unmounted]).
  reflexivity.
Defined.

Lemma step_lastRefreshedTimestamp ev s :
  lastRefreshedTimestamp (exec (step ev) s)
  = match ev with
    | Response now (Resolved result) =>
        if accepted result then JNum now else lastRefreshedTimestamp s
    | _ => lastRefreshedTimestamp s
    end.
Proof.
  unfold exec. destruct ev as [|now [result|reason]|]; cbn [step].
  - rewrite fetchData_begin_spec. reflexivity.
  - destruct (accepted result) eqn:A.
    + rewrite fetchData_resume_accepted by assumption. reflexivity.
    + rewrite fetchData_resume_refused by assumption. reflexivity.
  - destruct (nullish reason) eqn:N.
    + rewrite fetchData_resume_rejected_nullish by assumption. reflexivity.
    + rewrite fetchData_resume_rejected by assumption. reflexivity.
  - rewrite onUnmounted_spec. reflexivity.
Qed.

(** The stamp is that of the accepted response that arrived last:
    refreshes that start, fail or are refused, and the unmount, leave it
    alone; with overlapping refreshes the last arrival wins. *)
Theorem lastRefreshedTimestamp_follows_accepted (evs : list Event) (s : State) :
  lastRefreshedTimestamp (run evs s)
  = last_stamp evs (lastRefreshedTimestamp s).
Proof.
  revert s. induction evs as [|ev rest IH]; intros s; simpl; [reflexivity|].
  rewrite IH, step_lastRefreshedTimestamp.
  destruct ev as [|now [result|reason]|]; reflexivity.
Qed.

(** Once the component is unmounted its timer stays cleared: no later
    refresh or response arms it again. *)
Theorem timer_stays_cleared (evs : list Event) (s : State) :
  refreshTimer (run (Unmounted :: evs) s) = None.
Proof.
  assert (K : forall l st, refreshTimer st = None -> refreshTimer (run l st) = None).
  { induction l as [|ev rest IH]; intros st H; simpl; [exact H|].
    apply IH. unfold exec.
    destruct ev as [|now [result|reason]|]; cbn [step].
    - rewrite fetchData_begin_spec. exact H.
    - destruct (accepted result) eqn:A.
      + rewrite fetchData_resume_accepted by assumption. exact H.
      + rewrite fetchData_resume_refused by assumption. exact H.
    - destruct (nullish reason) eqn:N.
      + rewrite fetchData_resume_rejected_nullish by assumption. exact H.
      + rewrite fetchData_resume_rejected by assumption. exact H.
    - rewrite onUnmounted_spec. reflexivity. }
  simpl. apply K. unfold exec. rewrite onUnmounted_spec. reflexivity.
Qed.

Lemma padStart2_two_digits (n : Z) :
  (0 <= n < 60)%Z -> padStart2 (string_of_Z n) = two_digits n.
Proof.
  intros H.
  assert (K : forall k : nat, (k < 60)%nat ->
            padStart2 (string_of_Z (Z.of_nat k)) = two_digits (Z.of_nat k)).
  { intros k Hk.
    do 60 (destruct k as [|k]; [reflexivity|]). lia. }
  rewrite <- (Z2Nat.id n) by lia. apply K. lia.
Qed.

(** The time shown beside the refresh button.  With a stamp, and a clock
    that reads it as hour [h] (0 to 23), minute [m] and second [sec] (0
    to 59), the text is the label followed by the hour, the minute and
    the second, in this order, each written with two digits and
    separated by colons. *)
Theorem lastRefreshedTimeDisplay_shape
  (getHours getMinutes getSeconds : JsVal -> JsVal) (s : State) (h m sec : Z) :
  truthy (lastRefreshedTimestamp s) = true ->
  getHours (lastRefreshedTimestamp s) = JNum h -> (0 <= h < 24)%Z ->
  getMinutes (lastRefreshedTimestamp s) = JNum m -> (0 <= m < 60)%Z ->
  getSeconds (lastRefreshedTimestamp s) = JNum sec -> (0 <= sec < 60)%Z ->
  lastRefreshedTimeDisplay getHours getMinutes getSeconds s
  = "更新于: " ++ two_digits h ++ ":" ++ two_digits m ++ ":" ++ two_digits sec.
Proof.
  intros T H Hh M Hm S Hs. unfold lastRefreshedTimeDisplay.
  rewrite T, H, M, S. cbn [negb ToString].
  rewrite !padStart2_two_digits by lia. reflexivity.
Qed.

(** A response accepted one hour, two minutes and three seconds after
    the epoch, read in UTC. *)
Lemma lastRefreshedTimeDisplay_sample :
  lastRefreshedTimeDisplay utc_hours utc_minutes utc_seconds
    (exec (fetchData (answering sample_response) 3723000) initial)
  = "更新于: 01:02:03".
Proof.
  apply (lastRefreshedTimeDisplay_shape utc_hours utc_minutes utc_seconds
           (exec (fetchData (answering sample_response) 3723000) initial)
           1 2 3); solve [ reflexivity | lia ].
Defined.

End DashboardViewFacts.

(* ===================================================================== *)
(** * More on the application shell: traffic and view changes *)
(* ===================================================================== *)

Section AppTrafficFacts.

Import App.
Import AppTraffic.

Lemma is_showConfig_spec event :
  has_type event "showConfig" = is_showConfig event.
Proof. rewrite has_type_spec. reflexivity. Qed.

Lemma handleMessage_effect event s :
  completion (handleMessage event) s = Normal tt
  /\ posted (exec (handleMessage event) s) = posted s
  /\ currentComponent (exec (handleMessage event) s)
     = if is_showConfig event then Config else currentComponent s.
Proof.
  unfold completion, exec, handleMessage, when, bind.
  rewrite is_showConfig_spec, has_type_spec.
  destruct (envelope_kind event) as [k|] eqn:K.
  - destruct (k =? "api") eqn:E.
    + assert (N : nullish (data event) = false).
      { unfold envelope_kind in K. destruct (data event); try discriminate.
        reflexivity. }
      unfold get_prop. rewrite N. simpl.
      destruct (is_showConfig event); repeat split.
    + simpl. destruct (is_showConfig event); repeat split.
  - simpl. destruct (is_showConfig event); repeat split.
Qed.

(** The message handler never throws, whatever arrives, and never posts
    to the host; it moves the view to [Config] on a [showConfig]
    envelope and leaves it alone on anything else, an ['api'] envelope
    included.  In particular [showConfig] twice is [showConfig] once. *)
Theorem handleMessage_is_safe (event : MessageEvent) (s : State) :
  completion (handleMessage event) s = Normal tt
  /\ posted (exec (handleMessage event) s) = posted s
  /\ currentComponent (exec (handleMessage event) s)
     = (if is_showConfig event then Config else currentComponent s)
  /\ currentComponent
       (exec (handleMessage event) (exec (handleMessage event) s))
     = currentComponent (exec (handleMessage event) s).
Proof.
  destruct (handleMessage_effect event s) as (C & P & V).
  destruct (handleMessage_effect event (exec (handleMessage event) s))
    as (_ & _ & V2).
  split; [exact C|]. split; [exact P|]. split; [exact V|].
  rewrite V2, V. destruct (is_showConfig event); reflexivity.
Qed.

Lemma step_posted ev s :
  posted (exec (step ev) s) = (posted s ++ outgoing ev)%list.
Proof.
  destruct ev as [event| |parent|parent config]; cbn [step outgoing].
  - rewrite app_nil_r. apply (proj1 (proj2 (handleMessage_effect event s))).
  - rewrite app_nil_r. reflexivity.
  - unfold exec, closeModal, when. destruct (can_post parent); simpl;
      [reflexivity | rewrite app_nil_r; reflexivity].
  - unfold exec, saveConfig, when, bind.
    destruct config as [value|printed]; destruct (can_post parent); simpl;
      rewrite ?app_nil_r; reflexivity.
Qed.

(** What the shell sends: nothing on a host message or a switch, one
    ['close'] envelope for each close and one ['save'] envelope with the
    configuration for each save whose configuration can be cloned, in
    order, and only while the parent window can be posted to.  A save
    whose configuration cannot be cloned sends nothing. *)
Theorem posted_follows_events (evs : list Event) (s : State) :
  posted (run evs s) = (posted s ++ flat_map outgoing evs)%list.
Proof.
  revert s. induction evs as [|ev rest IH]; intros s; simpl.
  - rewrite app_nil_r. reflexivity.
  - rewrite IH, step_posted, <- app_assoc. reflexivity.
Qed.

(** Switching twice comes back: on a defined view [switchComponent] is
    its own inverse. *)
Theorem switchComponent_involution (s : State) :
  defined_view (currentComponent s) ->
  currentComponent (exec switchComponent (exec switchComponent s))
  = currentComponent s.
Proof.
  intros [H | H]; unfold exec, switchComponent, bind, gets; simpl;
    rewrite H; reflexivity.
Qed.

Lemma switchComponent_involution_sample :
  currentComponent (exec switchComponent (exec switchComponent initial)) = Page.
Proof.
  apply (switchComponent_involution initial). left. reflexivity.
Defined.

End AppTrafficFacts.

(* ===================================================================== *)
(** * Failed refreshes, on sample traffic *)
(* ===================================================================== *)

Section DashboardSamples.

Import Dashboard.

(** A response with a business error code and a message of its own. *)
Lemma refused_response_sample :
  let props := answering (JObj [("code", JNum 1); ("msg", JStr "未登录")]) in
  completion (fetchData props 1700) initial = Normal tt
  /\ nonempty_string (error (exec (fetchData props 1700) initial)) = true
  /\ status (exec (fetchData props 1700) initial) = status initial
  /\ loading (exec (fetchData props 1700) initial) = false.
Proof.
  apply (fetchData_refused_response
           (answering (JObj [("code", JNum 1); ("msg", JStr "未登录")]))
           1700 initial (JObj [("code", JNum 1); ("msg", JStr "未登录")]));
    reflexivity.
Defined.

(** A request rejected with a bare string. *)
Lemma rejected_request_sample :
  let props := rejecting (JStr "offline") in
  completion (fetchData props 1700) initial = Normal tt
  /\ truthy (error (exec (fetchData props 1700) initial)) = true
  /\ status (exec (fetchData props 1700) initial) = status initial
  /\ loading (exec (fetchData props 1700) initial) = false.
Proof.
  apply (fetchData_rejected_request (rejecting (JStr "offline")) 1700 initial
           (JStr "offline")); reflexivity.
Defined.

End DashboardSamples.
